(** * Human Detection node: worker supervision and streaming protocol

    A shallow embedding of the [HumanDetection] Node-RED node
    (src/getAppointment/getAppointment.js, second module of the file) and of the
    fragment of the JavaScript platform its handlers rely on
    ([String.prototype.split], [String.prototype.trim], [JSON.parse],
    truthiness, [ToNumber], timers and child processes).

    - Strings are modelled by their UTF-8 bytes ([String.string]); a chunk
      of standard output is the text [data.toString()] gives.
    - Numbers are IEEE-754 binary64 values, the kernel's primitive [float]:
      [50 / 100] and [count > 0] are computed as the language computes them.
    - An object is the list of its own properties in insertion order.
    - A handler is a function from the state of the node to the next state
      and the list of its effects ([node.send], [node.error], [node.status],
      [kill], ...), in order; the event loop delivers one event at a time.

    The file ends with the three appointment nodes ([save appointment],
    [get appointment], [remove appointment]) and the table of the SQLite
    file they share (module [Appointments]). *)

From Stdlib Require Import ZArith NArith String Ascii List Floats Lia Bool.
From stdpp Require Import base option list strings gmap.
Import ListNotations.

Set Warnings "-register-all,-inexact-float".
Local Open Scope string_scope.
Local Open Scope list_scope.

(* ===================================================================== *)
(** * The JavaScript platform                                             *)
(* ===================================================================== *)

Module JS.

(** ** Values: what [JSON.parse] can return, plus [undefined]. *)

Inductive jsval : Type :=
| JUndefined
| JNull
| JBool (b : bool)
| JNum (x : float)
| JStr (s : string)
| JArr (xs : list jsval)
| JObj (fields : list (string * jsval)).

(** Own properties of an object, in insertion order. *)
Abbreviation object := (list (string * jsval)).

Fixpoint lookup_field (k : string) (o : object) : option jsval :=
  match o with
  | [] => None
  | (k', v) :: o' => if String.eqb k k' then Some v else lookup_field k o'
  end.

(** [o[k] = v]: an existing property keeps its place, a new one goes last. *)
Fixpoint set_field (k : string) (v : jsval) (o : object) : object :=
  match o with
  | [] => [(k, v)]
  | (k', v') :: o' =>
      if String.eqb k k' then (k, v) :: o' else (k', v') :: set_field k v o'
  end.

(** ** Bytes and characters *)

Definition code (c : ascii) : N := N_of_ascii c.

Definition is_digit (c : ascii) : bool :=
  (48 <=? code c)%N && (code c <=? 57)%N.

Definition hex_val (c : ascii) : option N :=
  let n := code c in
  if (48 <=? n)%N && (n <=? 57)%N then Some (n - 48)%N
  else if (65 <=? n)%N && (n <=? 70)%N then Some (n - 55)%N
  else if (97 <=? n)%N && (n <=? 102)%N then Some (n - 87)%N
  else None.

Definition byte (n : N) : ascii := ascii_of_N n.

(** What follows the character [c] in [s], if [s] starts with it. *)
Definition after (c : ascii) (s : string) : option string :=
  match s with
  | String c' r => if Ascii.eqb c' c then Some r else None
  | EmptyString => None
  end.

(** UTF-8 encoding of a code point (surrogates are encoded like any other
    three-byte code point). *)
Definition utf8 (cp : N) : string :=
  if (cp <? 128)%N then String (byte cp) ""
  else if (cp <? 2048)%N then
    String (byte (192 + cp / 64)) (String (byte (128 + cp mod 64)) "")
  else if (cp <? 65536)%N then
    String (byte (224 + cp / 4096))
      (String (byte (128 + (cp / 64) mod 64))
         (String (byte (128 + cp mod 64)) ""))
  else
    String (byte (240 + cp / 262144))
      (String (byte (128 + (cp / 4096) mod 64))
         (String (byte (128 + (cp / 64) mod 64))
            (String (byte (128 + cp mod 64)) ""))).

(** ** White space

    [WhiteSpace] and [LineTerminator] of ECMAScript, as UTF-8 sequences:
    TAB, LF, VT, FF, CR, SP, U+00A0, U+1680, U+2000..U+200A, U+2028, U+2029,
    U+202F, U+205F, U+3000, U+FEFF. *)

Definition is_ws1 (n : N) : bool :=
  ((9 <=? n) && (n <=? 13) || (n =? 32))%N.

Definition is_ws3 (a b c : N) : bool :=
  ((a =? 225) && (b =? 154) && (c =? 128)
   || (a =? 226) && (b =? 128)
        && ((128 <=? c) && (c <=? 138) || (c =? 168) || (c =? 169) || (c =? 175))
   || (a =? 226) && (b =? 129) && (c =? 159)
   || (a =? 227) && (b =? 128) && (c =? 128)
   || (a =? 239) && (b =? 187) && (c =? 191))%N.

(** Removes one leading white-space character, if there is one. *)
Definition ws_strip (s : string) : option string :=
  match s with
  | String c r =>
      if is_ws1 (code c) then Some r
      else
        match r with
        | String c2 r2 =>
            if ((code c =? 194) && (code c2 =? 160))%N then Some r2
            else
              match r2 with
              | String c3 r3 =>
                  if is_ws3 (code c) (code c2) (code c3) then Some r3 else None
              | EmptyString => None
              end
        | EmptyString => None
        end
  | EmptyString => None
  end.

Fixpoint trimStart_aux (fuel : nat) (s : string) : string :=
  match fuel with
  | O => s
  | S f => match ws_strip s with Some r => trimStart_aux f r | None => s end
  end.

Definition trimStart (s : string) : string := trimStart_aux (String.length s) s.

Definition blank (s : string) : bool := String.eqb (trimStart s) "".

Fixpoint trimEnd (s : string) : string :=
  match s with
  | EmptyString => EmptyString
  | String c r => if blank s then EmptyString else String c (trimEnd r)
  end.

(** [s.trim()] *)
Definition trim (s : string) : string := trimEnd (trimStart s).

(** ** [s.split('\n')]: never empty, one more fragment than line feeds. *)

Definition LF : ascii := "010"%char.
Definition DQUOTE : ascii := "034"%char.
Definition NL : string := String LF "".

Fixpoint split_nl (s : string) : list string :=
  match s with
  | EmptyString => [EmptyString]
  | String c r =>
      if Ascii.eqb c LF then EmptyString :: split_nl r
      else
        match split_nl r with
        | l :: ls => String c l :: ls
        | [] => [String c EmptyString]
        end
  end.

(** ** Decimal literals to binary64, correctly rounded

    [dec_to_float neg m e] is the double nearest to [(-1)^neg * m * 10^e]
    (ties to even), computed on the specification floats of the Standard
    Library with exact integer arithmetic. *)

Definition dec_to_float (neg : bool) (m : N) (e : Z) : float :=
  match m with
  | N0 => if neg then neg_zero else zero
  | Npos p =>
      if (0 <=? e)%Z then
        SF2Prim (binary_normalize prec emax
                   (cond_Zopp neg (Zpos p * 10 ^ e)) 0 false)
      else
        match (10 ^ (- e))%Z with
        | Zpos d => SF2Prim (SFdiv prec emax (S754_finite neg p 0)
                                             (S754_finite false d 0))
        | _ => nan
        end
  end.

(** Reads a (possibly empty) run of decimal digits: the number read on top
    of [acc], how many digits there were, and the rest. *)
Fixpoint digits (s : string) (acc : N) (cnt : N) : N * N * string :=
  match s with
  | String c r =>
      if is_digit c then digits r (acc * 10 + (code c - 48))%N (cnt + 1)%N
      else (acc, cnt, s)
  | EmptyString => (acc, cnt, s)
  end.

(** Optional exponent part [[eE][+-]?digits]; [None] when an exponent
    marker is not followed by digits. *)
Definition exponent (s : string) : option (Z * string) :=
  match s with
  | String c r =>
      if Ascii.eqb c "e" || Ascii.eqb c "E" then
        let '(sg, r1) :=
          match after "+" r, after "-" r with
          | Some r', _ => (false, r')
          | None, Some r' => (true, r')
          | None, None => (false, r)
          end in
        let '(v, n, rest) := digits r1 0 0 in
        if (n =? 0)%N then None
        else Some (cond_Zopp sg (Z.of_N v), rest)
      else Some (0%Z, s)
  | EmptyString => Some (0%Z, s)
  end.

Definition fraction (s : string) (acc : N) : option (N * N * string) :=
  match after "." s with
  | Some r =>
      let '(v, n, rest) := digits r acc 0 in
      if (n =? 0)%N then None else Some (v, n, rest)
  | None => Some (acc, 0%N, s)
  end.

(** ** [JSON.parse] *)

(** A JSON number: an optional minus sign, an integer part without leading
    zeros, an optional fraction and an optional exponent. *)
Definition json_number (s : string) : option (float * string) :=
  let '(neg, s1) :=
    match after "-" s with Some r => (true, r) | None => (false, s) end in
  match s1 with
  | String c r =>
      if is_digit c then
        let '(ip, _, s2) :=
          if Ascii.eqb c "0" then (0%N, 1%N, r) else digits s1 0 0 in
        '(m, nf, s3) ← fraction s2 ip;
        '(e, s4) ← exponent s3;
        Some (dec_to_float neg m (e - Z.of_N nf), s4)
      else None
  | EmptyString => None
  end.

Definition hex4 (a b c d : ascii) : option N :=
  x ← hex_val a; y ← hex_val b; z ← hex_val c; w ← hex_val d;
  Some (((x * 16 + y) * 16 + z) * 16 + w)%N.

Definition is_high_surrogate (n : N) : bool := ((55296 <=? n) && (n <=? 56319))%N.
Definition is_low_surrogate (n : N) : bool := ((56320 <=? n) && (n <=? 57343))%N.

(** The low half of a surrogate pair written as [\uXXXX], if the text
    starts with one. *)
Definition low_escape (s : string) : option (N * string) :=
  r1 ← after "\" s;
  r2 ← after "u" r1;
  match r2 with
  | String a (String b (String c (String d r))) =>
      n ← hex4 a b c d;
      if is_low_surrogate n then Some (n, r) else None
  | _ => None
  end.

(** The characters of a JSON string after its opening quote, up to and
    including the closing quote. *)
Fixpoint json_string (fuel : nat) (s : string) : option (string * string) :=
  match fuel with
  | O => None
  | S f =>
      match s with
      | EmptyString => None
      | String c r =>
          if Ascii.eqb c DQUOTE then Some (EmptyString, r)
          else if Ascii.eqb c "\" then
            match r with
            | String e r2 =>
                let simple (ch : ascii) :=
                  '(str, rest) ← json_string f r2; Some (String ch str, rest) in
                if Ascii.eqb e DQUOTE then simple DQUOTE
                else if Ascii.eqb e "\" then simple "\"%char
                else if Ascii.eqb e "/" then simple "/"%char
                else if Ascii.eqb e "b" then simple "008"%char
                else if Ascii.eqb e "f" then simple "012"%char
                else if Ascii.eqb e "n" then simple "010"%char
                else if Ascii.eqb e "r" then simple "013"%char
                else if Ascii.eqb e "t" then simple "009"%char
                else if Ascii.eqb e "u" then
                  match r2 with
                  | String h1 (String h2 (String h3 (String h4 r3))) =>
                      hi ← hex4 h1 h2 h3 h4;
                      match (if is_high_surrogate hi then low_escape r3 else None) with
                      | Some (lo, r4) =>
                          '(str, rest) ← json_string f r4;
                          Some (utf8 (65536 + (hi - 55296) * 1024 + (lo - 56320))
                                  +:+ str, rest)
                      | None =>
                          '(str, rest) ← json_string f r3;
                          Some (utf8 hi +:+ str, rest)
                      end
                  | _ => None
                  end
                else None
            | EmptyString => None
            end
          else if (code c <? 32)%N then None
          else '(str, rest) ← json_string f r; Some (String c str, rest)
      end
  end.

(** JSON white space: space, TAB, LF, CR. *)
Fixpoint skip_ws (s : string) : string :=
  match s with
  | String c r =>
      if ((code c =? 32) || (code c =? 9) || (code c =? 10) || (code c =? 13))%N
      then skip_ws r else s
  | EmptyString => s
  end.

(** What follows the word [p] in [s], if [s] starts with it. *)
Fixpoint strip_prefix (p s : string) : option string :=
  match p with
  | EmptyString => Some s
  | String c p' => r ← after c s; strip_prefix p' r
  end.

Fixpoint json_value (fuel : nat) (s : string) : option (jsval * string) :=
  match fuel with
  | O => None
  | S f =>
      match skip_ws s with
      | EmptyString => None
      | String c r as s' =>
          if Ascii.eqb c "{" then
            match after "}" (skip_ws r) with
            | Some r' => Some (JObj [], r')
            | None => json_members f r []
            end
          else if Ascii.eqb c "[" then
            match after "]" (skip_ws r) with
            | Some r' => Some (JArr [], r')
            | None => json_elements f r []
            end
          else if Ascii.eqb c DQUOTE then
            '(str, rest) ← json_string (String.length s) r; Some (JStr str, rest)
          else if Ascii.eqb c "t" then
            rest ← strip_prefix "true" s'; Some (JBool true, rest)
          else if Ascii.eqb c "f" then
            rest ← strip_prefix "false" s'; Some (JBool false, rest)
          else if Ascii.eqb c "n" then
            rest ← strip_prefix "null" s'; Some (JNull, rest)
          else
            '(x, rest) ← json_number s'; Some (JNum x, rest)
      end
  end
with json_elements (fuel : nat) (s : string) (acc : list jsval)
  : option (jsval * string) :=
  match fuel with
  | O => None
  | S f =>
      '(v, rest) ← json_value f s;
      match after "," (skip_ws rest), after "]" (skip_ws rest) with
      | Some r, _ => json_elements f r (acc ++ [v])
      | None, Some r => Some (JArr (acc ++ [v]), r)
      | None, None => None
      end
  end
with json_members (fuel : nat) (s : string) (acc : object)
  : option (jsval * string) :=
  match fuel with
  | O => None
  | S f =>
      r ← after DQUOTE (skip_ws s);
      '(k, rest) ← json_string (String.length s) r;
      r2 ← after ":" (skip_ws rest);
      '(v, rest2) ← json_value f r2;
      let acc' := set_field k v acc in
      match after "," (skip_ws rest2), after "}" (skip_ws rest2) with
      | Some r3, _ => json_members f r3 acc'
      | None, Some r3 => Some (JObj acc', r3)
      | None, None => None
      end
  end.

(** [JSON.parse(text)]; [None] stands for the [SyntaxError] it throws. *)
Definition JSON_parse (text : string) : option jsval :=
  '(v, rest) ← json_value (S (String.length text)) text;
  if String.eqb (skip_ws rest) "" then Some v else None.

(** ** Conversions and operators *)

(** [ToBoolean]. *)
Definition truthy (v : jsval) : bool :=
  match v with
  | JUndefined | JNull => false
  | JBool b => b
  | JNum x => negb (is_zero x || is_nan x)
  | JStr s => negb (String.eqb s "")
  | JArr _ | JObj _ => true
  end.

(** [a || b] *)
Definition or_else (a b : jsval) : jsval := if truthy a then a else b.

(** [v === s] for a string literal [s]. *)
Definition is_string (v : jsval) (s : string) : bool :=
  match v with JStr s' => String.eqb s' s | _ => false end.

(** [v.k] for the property names the node reads ([error], [status], [count],
    [humans], [timestamp]), none of which a prototype provides; reading a
    property of [null] or [undefined] throws a [TypeError] instead. *)
Definition nullish (v : jsval) : bool :=
  match v with JUndefined | JNull => true | _ => false end.

Definition prop (v : jsval) (k : string) : jsval :=
  match v with
  | JObj o => default JUndefined (lookup_field k o)
  | _ => JUndefined
  end.

(** Digits of an integer literal in the given radix, all to be consumed. *)
Fixpoint radix_digits (base : N) (s : string) (acc : N) : option N :=
  match s with
  | EmptyString => Some acc
  | String c r =>
      d ← hex_val c;
      if (d <? base)%N then radix_digits base r (acc * base + d)%N else None
  end.

(** [StrDecimalLiteral]: a sign, then [Infinity] or digits with an optional
    fraction and exponent; at least one digit, everything consumed. *)
Definition str_decimal (s : string) : float :=
  let '(neg, s1) :=
    match after "-" s, after "+" s with
    | Some r, _ => (true, r)
    | None, Some r => (false, r)
    | None, None => (false, s)
    end in
  if String.eqb s1 "Infinity" then (if neg then neg_infinity else infinity)
  else
    let '(ip, ni, s2) := digits s1 0 0 in
    let '(m, nf, s3) :=
      match after "." s2 with
      | Some r => digits r ip 0
      | None => (ip, 0%N, s2)
      end in
    if (ni + nf =? 0)%N then nan
    else
      match exponent s3 with
      | Some (e, EmptyString) => dec_to_float neg m (e - Z.of_N nf)
      | _ => nan
      end.

(** [StringToNumber]: the empty (or blank) string is [0], a malformed
    literal is [NaN]. *)
Definition StringToNumber (s : string) : float :=
  let t := trim s in
  let radix (base : N) (r : string) :=
    match r with
    | EmptyString => nan
    | _ => match radix_digits base r 0 with
           | Some n => dec_to_float false n 0
           | None => nan
           end
    end in
  match t, after "0" t with
  | EmptyString, _ => zero
  | _, Some (String x r) =>
      if Ascii.eqb x "x" || Ascii.eqb x "X" then radix 16%N r
      else if Ascii.eqb x "o" || Ascii.eqb x "O" then radix 8%N r
      else if Ascii.eqb x "b" || Ascii.eqb x "B" then radix 2%N r
      else str_decimal t
  | _, _ => str_decimal t
  end.

(** [ToNumber]. An array converts through its [toString]: no element gives
    the empty string, one element gives that element's string (a number
    reads back as itself, [-0] as [0]; [null] and [undefined] give the empty
    string), several give a string with a comma, which is no number. *)
Fixpoint ToNumber (v : jsval) : float :=
  match v with
  | JUndefined => nan
  | JNull => zero
  | JBool b => if b then one else zero
  | JNum x => x
  | JStr s => StringToNumber s
  | JObj _ => nan
  | JArr [] => zero
  | JArr [x] =>
      match x with
      | JUndefined | JNull => zero
      | JBool _ | JObj _ => nan
      | JNum y => if is_zero y then zero else y
      | JStr s => StringToNumber s
      | JArr _ => ToNumber x
      end
  | JArr _ => nan
  end.

(** [v > 0] *)
Definition gt_zero (v : jsval) : bool := (zero <? ToNumber v)%float.

(** [a / b] and [a * b] on numbers. *)
Definition div (a b : jsval) : jsval := JNum (ToNumber a / ToNumber b).
Definition mul (a b : jsval) : jsval := JNum (ToNumber a * ToNumber b).

End JS.

(* ===================================================================== *)
(** * The Human Detection node                                            *)
(* ===================================================================== *)

Module HumanDetection.
Import JS.

(** A child process and a timer are known by the order of their creation. *)
Definition pid := nat.
Definition tid := nat.

(** A Node-RED message is a plain object. *)
Abbreviation message := (list (string * jsval)).

(** The node's configuration, as the editor stores it: any value, or
    [undefined] when a property is absent. *)
Record config : Type := Config {
  method : jsval;
  confidence : jsval;
  camera : jsval;
  timeout : jsval;
  visualFeedback : jsval;
  detectEmotion : jsval
}.

(** What the module sees of its host: the node's configuration, the
    directory of the script ([__dirname]), and whether the middleware's
    [EventPubSub] could be loaded. *)
Record env : Type := Env {
  cfg : config;
  dirname : string;
  events : bool
}.

(** Modelled from the spec: the message catalogue read by [RED._] is not
    among the sources; the fixed timeout notification is the one the README
    documents for output 2, and an unknown key is returned as it is. *)
Definition RED_ (key : string) : string :=
  if String.eqb key "humanDetection.timeoutOutput"
  then "No humans detected (timeout)"
  else key.

(** [path.join] on path segments that need no normalisation. *)
Fixpoint path_join (segments : list string) : string :=
  match segments with
  | [] => "."
  | [x] => x
  | x :: rest => x +:+ "/" +:+ path_join rest
  end.

(** ** Observable effects *)

(** The argument of [node.status]. *)
Inductive status : Type :=
| StatusClear                      (* {} *)
| StatusDetecting                  (* blue dot, humanDetection.detecting *)
| StatusReady                      (* blue dot, humanDetection.ready *)
| StatusDetected (count : jsval)   (* green dot, humanDetection.detected: <count> *)
| StatusError.                     (* red ring, humanDetection.error *)

(** The argument of [node.error]. *)
Inductive report : Type :=
| ReportWorker (reason : jsval)    (* result.error *)
| ReportExit (code : Z)            (* Python process exited with code <code> *)
| ReportStart (msg : string)       (* Failed to start Python process: <msg> *)
| ReportSpawn (msg : string).      (* Error spawning Python: <msg> *)

Inductive effect : Type :=
| Send (out1 out2 : option message)          (* node.send([out1, out2]) *)
| Error (r : report)                         (* node.error *)
| Status (st : status)                       (* node.status *)
| Log (line : string)                        (* node.log *)
| Warn (data : string)                       (* node.warn(`Python error: ...`) *)
| Kill (p : pid)                             (* pythonProcess.kill() *)
| ClearTimeout (t : tid)                     (* clearTimeout *)
| SetTimeout (t : tid) (ms : jsval)          (* setTimeout(timeoutHandler, ms) *)
| Spawn (p : pid) (cmd : string) (args : list jsval)
| Done.                                      (* done() of the close handler *)

(** ** State

    The three variables of the node's closure, and what the host keeps for
    it: the [dataBuffer] of every worker whose listeners can still be
    called (spawned and not yet closed; killing a worker does not remove
    its listeners), the timers that are pending, and how many workers and
    timers were created so far. *)
Record state : Type := State {
  pythonProcess : option pid;
  waitingNode : option message;
  timeoutId : option tid;
  dataBuffer : gmap pid string;
  pending : gset tid;
  spawned : nat;
  armed : nat
}.

Definition init : state :=
  {| pythonProcess := None; waitingNode := None; timeoutId := None;
     dataBuffer := ∅; pending := ∅; spawned := 0; armed := 0 |}.

(** A handler, or a piece of one: the next state and the effects it had,
    in order. *)
Definition cmd : Type := state -> state * list effect.

Definition skip : cmd := fun s => (s, []).
Definition emit (e : effect) : cmd := fun s => (s, [e]).
Definition seq (c1 c2 : cmd) : cmd :=
  fun s => let '(s1, e1) := c1 s in let '(s2, e2) := c2 s1 in (s2, e1 ++ e2).
Declare Scope cmd_scope.
Delimit Scope cmd_scope with cmd.
Bind Scope cmd_scope with cmd.
Notation "c1 ;; c2" := (seq c1 c2) : cmd_scope.
Local Open Scope cmd_scope.

Fixpoint forEach {A : Type} (f : A -> cmd) (l : list A) : cmd :=
  match l with
  | [] => skip
  | x :: l' => f x ;; forEach f l'
  end.

(** ** The handlers *)

Definition cleanup : cmd := fun s =>
  ({| pythonProcess := None;
      waitingNode := None;
      timeoutId := None;
      dataBuffer := dataBuffer s;
      pending := match timeoutId s with
                 | Some t => pending s ∖ {[ t ]}
                 | None => pending s
                 end;
      spawned := spawned s;
      armed := armed s |},
   match pythonProcess s with Some p => [Kill p] | None => [] end
   ++ match timeoutId s with Some t => [ClearTimeout t] | None => [] end
   ++ [Status StatusClear]).

Definition timeoutOutput : message :=
  [("payload", JStr (RED_ "humanDetection.timeoutOutput"))].

Definition timeoutHandler : cmd := fun s =>
  match waitingNode s with
  | Some _ => (emit (Send None (Some timeoutOutput)) ;; cleanup) s
  | None => skip s
  end.

Definition set_waitingNode (msg : message) : cmd := fun s =>
  ({| pythonProcess := pythonProcess s; waitingNode := Some msg;
      timeoutId := timeoutId s; dataBuffer := dataBuffer s;
      pending := pending s; spawned := spawned s; armed := armed s |}, []).

(** [timeoutId = setTimeout(timeoutHandler, ms)] *)
Definition setTimeout (ms : jsval) : cmd := fun s =>
  let t := armed s in
  ({| pythonProcess := pythonProcess s; waitingNode := waitingNode s;
      timeoutId := Some t; dataBuffer := dataBuffer s;
      pending := pending s ∪ {[ t ]}; spawned := spawned s;
      armed := S t |}, [SetTimeout t ms]).

(** [pythonProcess = spawn(pythonCmd, args); let dataBuffer = ''] with the
    listeners attached. *)
Definition spawn (pythonCmd : string) (args : list jsval) : cmd := fun s =>
  let p := spawned s in
  ({| pythonProcess := Some p; waitingNode := waitingNode s;
      timeoutId := timeoutId s; dataBuffer := <[ p := "" ]> (dataBuffer s);
      pending := pending s; spawned := S p; armed := armed s |},
   [Spawn p pythonCmd args]).

Definition set_dataBuffer (p : pid) (buf : string) : cmd := fun s =>
  ({| pythonProcess := pythonProcess s; waitingNode := waitingNode s;
      timeoutId := timeoutId s; dataBuffer := <[ p := buf ]> (dataBuffer s);
      pending := pending s; spawned := spawned s; armed := armed s |}, []).

(** The body of the [try]: what is done with a parsed line. [None] stands
    for the [TypeError] thrown on reading [result.error] when [result] is
    [null], which is caught together with the parse errors. *)
Definition on_result (result : jsval) (s : state) : option (state * list effect) :=
  if nullish result then None
  else Some (
    if truthy (prop result "error") then
      (emit (Error (ReportWorker (prop result "error"))) ;;
       emit (Status StatusError) ;;
       cleanup) s
    else if is_string (prop result "status") "ready" then
      emit (Status StatusReady) s
    else if is_string (prop result "status") "detected"
            && gt_zero (prop result "count") then
      match waitingNode s with
      | Some w =>
          let outputMsg :=
            set_field "payload"
              (JObj [("count", prop result "count");
                     ("humans", prop result "humans");
                     ("timestamp", prop result "timestamp")])
              w in
          (emit (Send (Some outputMsg) None) ;;
           emit (Status (StatusDetected (prop result "count"))) ;;
           cleanup) s
      | None => skip s
      end
    else skip s).

Definition on_line (line : string) : cmd := fun s =>
  if truthy (JStr (trim line)) then
    match JSON_parse line with
    | Some result =>
        match on_result result s with
        | Some r => r
        | None => emit (Log line) s
        end
    | None => emit (Log line) s
    end
  else skip s.

(** The line demuxer: the chunk is appended to the buffer, the buffer is
    split, [lines.pop()] is the new buffer. *)
Definition feed (buffer data : string) : list string * string :=
  let lines := split_nl (buffer +:+ data) in
  (removelast lines, List.last lines "").

Definition on_stdout (p : pid) (data : string) (s : state)
  : option (state * list effect) :=
  buffer ← dataBuffer s !! p;
  let '(lines, rest) := feed buffer data in
  Some ((set_dataBuffer p rest ;; forEach on_line lines) s).

Definition on_stderr (data : string) : cmd := emit (Warn data).

Definition on_close (code : option Z) : cmd :=
  match code with
  | Some c =>
      if negb (c =? 0)%Z
      then emit (Error (ReportExit c)) ;; emit (Status StatusError) ;; cleanup
      else cleanup
  | None => cleanup
  end.

Definition on_error (msg : string) : cmd :=
  emit (Error (ReportStart msg)) ;; emit (Status StatusError) ;; cleanup.

Definition args_of (e : env) : list jsval :=
  [ JStr (path_join [dirname e; "detect_human.py"]);
    JStr "--method"; or_else (method (cfg e)) (JStr "mobilenet");
    JStr "--confidence"; div (or_else (confidence (cfg e)) (JNum 50)) (JNum 100);
    JStr "--camera"; or_else (camera (cfg e)) (JStr "0") ]
  ++ (if negb (truthy (visualFeedback (cfg e))) then [JStr "--no-display"] else [])
  ++ (if truthy (detectEmotion (cfg e)) then [JStr "--emotion"] else []).

(** The input handler. [venv] is what [fs.existsSync(venvPython)] answers,
    [thrown] the message of the exception [spawn] throws, if it does. *)
Definition on_input (e : env) (msg : message) (venv : bool) (thrown : option string)
  : cmd :=
  cleanup ;;
  set_waitingNode msg ;;
  emit (Status StatusDetecting) ;;
  (if truthy (timeout (cfg e)) && gt_zero (timeout (cfg e))
   then setTimeout (mul (timeout (cfg e)) (JNum 1000)) else skip) ;;
  let pythonCmd :=
    if venv then path_join [dirname e; "venv"; "bin"; "python3"] else "python3" in
  match thrown with
  | None => spawn pythonCmd (args_of e)
  | Some m => emit (Error (ReportSpawn m)) ;; emit (Status StatusError) ;; cleanup
  end.

Definition on_node_close : cmd := cleanup ;; emit Done.

(** ** Events

    What the host can deliver to the node. A worker's listeners are called
    from its spawn to its [close] event, whether it was killed or not; a
    timer fires once, and only while it is pending. *)
Inductive event : Type :=
| Input (msg : message) (venv : bool) (thrown : option string)
| Stdout (p : pid) (data : string)
| Stderr (p : pid) (data : string)
| Close (p : pid) (code : option Z)
| ProcError (p : pid) (msg : string)
| Timer (t : tid)
| NodeClose
| ResetNodeState.

Definition forget_worker (p : pid) (s : state) : state :=
  {| pythonProcess := pythonProcess s; waitingNode := waitingNode s;
     timeoutId := timeoutId s; dataBuffer := delete p (dataBuffer s);
     pending := pending s; spawned := spawned s; armed := armed s |}.

Definition fired (t : tid) (s : state) : state :=
  {| pythonProcess := pythonProcess s; waitingNode := waitingNode s;
     timeoutId := timeoutId s; dataBuffer := dataBuffer s;
     pending := pending s ∖ {[ t ]}; spawned := spawned s; armed := armed s |}.

(** One turn of the event loop; [None] when the host cannot deliver the
    event in this state. *)
Definition step (e : env) (s : state) (ev : event) : option (state * list effect) :=
  match ev with
  | Input msg venv thrown => Some (on_input e msg venv thrown s)
  | Stdout p data => on_stdout p data s
  | Stderr p data => _ ← dataBuffer s !! p; Some (on_stderr data s)
  | Close p code => _ ← dataBuffer s !! p; Some (on_close code (forget_worker p s))
  | ProcError p msg => _ ← dataBuffer s !! p; Some (on_error msg s)
  | Timer t => if decide (t ∈ pending s) then Some (timeoutHandler (fired t s)) else None
  | NodeClose => Some (on_node_close s)
  | ResetNodeState => if events e then Some (cleanup s) else None
  end.

Fixpoint run (e : env) (s : state) (evs : list event) : option (state * list effect) :=
  match evs with
  | [] => Some (s, [])
  | ev :: evs' =>
      '(s1, out1) ← step e s ev;
      '(s2, out2) ← run e s1 evs';
      Some (s2, out1 ++ out2)
  end.

(** ** Requests and outcomes

    A Request is what follows one [Input] up to the next one. Its outcome is
    the first terminal signal among its effects: an emission on output 1
    (success), an emission on output 2 (timeout), or an error report. *)

Definition is_input (ev : event) : bool :=
  match ev with Input _ _ _ => true | _ => false end.

Definition no_input (evs : list event) : bool :=
  forallb (fun ev => negb (is_input ev)) evs.

Definition on_channel1 (x : effect) : bool :=
  match x with Send (Some _) _ => true | _ => false end.

Definition on_channel2 (x : effect) : bool :=
  match x with Send _ (Some _) => true | _ => false end.

Definition emissions (channel : effect -> bool) (out : list effect) : nat :=
  length (List.filter channel out).

Inductive outcome : Type :=
| Success (m : message)
| TimedOut (m : message)
| Failure (r : report).

Definition terminal (x : effect) : option outcome :=
  match x with
  | Send (Some m) _ => Some (Success m)
  | Send None (Some m) => Some (TimedOut m)
  | Error r => Some (Failure r)
  | _ => None
  end.

Fixpoint outcome_of (out : list effect) : option outcome :=
  match out with
  | [] => None
  | x :: out' =>
      match terminal x with
      | Some o => Some o
      | None => outcome_of out'
      end
  end.

(** The events that end a Request without a word: a worker closing with
    exit code 0 or with none (killed by a signal), the node being closed,
    the middleware's state reset. *)
Definition silent (ev : event) : bool :=
  match ev with
  | Close _ (Some c) => (c =? 0)%Z
  | Close _ None => true
  | NodeClose | ResetNodeState => true
  | _ => false
  end.




(** ** Invariants of the handlers *)

(** What every piece of a handler other than the start of a new Request
    respects. The slot is [waitingNode]. With the slot empty it emits
    nothing and leaves the slot empty (it may report an error); it emits
    once at most; a terminal signal leaves the slot empty; and when an error
    report comes first, there is no emission at all. *)
Record guarded (s : state) (out : list effect) (s' : state) : Prop := Guarded {
  g_idle : waitingNode s = None ->
           waitingNode s' = None /\ outcome_of out = None \/
           waitingNode s' = None /\ exists r, outcome_of out = Some (Failure r)
                                              /\ emissions on_channel1 out = 0
                                              /\ emissions on_channel2 out = 0;
  g_once : emissions on_channel1 out + emissions on_channel2 out <= 1;
  g_term : outcome_of out <> None -> waitingNode s' = None;
  g_fail : forall r, outcome_of out = Some (Failure r) ->
           emissions on_channel1 out = 0 /\ emissions on_channel2 out = 0
}.

Definition guards (c : cmd) : Prop :=
  forall s, guarded s (snd (c s)) (fst (c s)).

(** A piece of a handler is loud when it cannot empty an occupied slot
    without a terminal signal. *)
Definition loud (c : cmd) : Prop :=
  forall s, waitingNode s <> None -> waitingNode (fst (c s)) = None ->
            outcome_of (snd (c s)) <> None.

(** The states an event other than an input can lead to: the host's own
    bookkeeping (a worker forgotten, a timer fired, a buffer replaced),
    followed or not by teardown. *)
Inductive bookkeeping (s : state) : state -> Prop :=
| bk_same : bookkeeping s s
| bk_forget p : bookkeeping s (forget_worker p s)
| bk_fired t : bookkeeping s (fired t s)
| bk_buffer p buf : bookkeeping s (fst (set_dataBuffer p buf s)).

(** What holds of every state the node reaches: timers are numbered below
    the next one, the only timer that can be pending is the one in
    [timeoutId], with a Request in the slot, and a Request in the slot has
    its worker. *)
Record consistent (s : state) : Prop := Consistent {
  inv_timer : forall t, timeoutId s = Some t -> t < armed s;
  inv_pending : forall t, t ∈ pending s ->
                timeoutId s = Some t /\ waitingNode s <> None;
  inv_worker : waitingNode s <> None -> pythonProcess s <> None
}.

(** The three variables of the closure, which the handlers read and write. *)
Definition variables (s : state) : option pid * option message * option tid :=
  (pythonProcess s, waitingNode s, timeoutId s).

(** A timer that was created and is no longer pending never fires. *)
Definition spent (t : tid) (s : state) : Prop := t < armed s /\ t ∉ pending s.

End HumanDetection.

(* ===================================================================== *)
(** * Concrete scenarios                                                  *)
(* ===================================================================== *)

Module Scenario.
Import JS HumanDetection.

(** A node configured with a two-second timeout, every other property left
    to its default. *)
Definition cfg_timeout2 : config :=
  {| method := JUndefined; confidence := JUndefined; camera := JUndefined;
     timeout := JNum 2; visualFeedback := JBool false;
     detectEmotion := JBool false |}.

(** The same node without a timeout. *)
Definition cfg_timeout0 : config :=
  {| method := JUndefined; confidence := JNum 0; camera := JUndefined;
     timeout := JNum 0; visualFeedback := JBool false;
     detectEmotion := JBool false |}.

Definition env2 : env := {| cfg := cfg_timeout2; dirname := "/nodes/humanDetection"; events := true |}.
Definition env0 : env := {| cfg := cfg_timeout0; dirname := "/nodes/humanDetection"; events := false |}.

Definition msg1 : message := [("_msgid", JStr "a1"); ("payload", JStr "first")].
Definition msg2 : message := [("_msgid", JStr "b2"); ("payload", JStr "second")].

(** JSON texts are written with an apostrophe where the text has a double
    quote. *)
Fixpoint js (text : string) : string :=
  match text with
  | EmptyString => EmptyString
  | String c r => String (if Ascii.eqb c "'" then DQUOTE else c) (js r)
  end.

Definition line_ready : string := js "{'status':'ready'}" +:+ NL.
Definition line_detected : string :=
  js "{'status':'detected','count':1,'humans':[{'id':0,'bbox':{'x':10,'y':20,'width':30,'height':40},'confidence':0.9}],'timestamp':'2025-01-01T00:00:00Z'}"
  +:+ NL.
Definition line_nobody : string :=
  js "{'status':'detected','count':0,'humans':[],'timestamp':'2025-01-01T00:00:00Z'}"
  +:+ NL.
Definition line_camera : string := js "{'error':'camera not found'}" +:+ NL.
Definition line_empty_error : string := js "{'error':''}" +:+ NL.

(** The payload of scenario A's detection. *)
Definition detection : jsval :=
  JObj [("count", JNum 1);
        ("humans",
         JArr [JObj [("id", JNum 0);
                     ("bbox", JObj [("x", JNum 10); ("y", JNum 20);
                                    ("width", JNum 30); ("height", JNum 40)]);
                     ("confidence", JNum 0.9)]]);
        ("timestamp", JStr "2025-01-01T00:00:00Z")].

(** The message of scenario A, decoded. *)
Definition result_detected : jsval :=
  JObj [("status", JStr "detected"); ("count", JNum 1);
        ("humans",
         JArr [JObj [("id", JNum 0);
                     ("bbox", JObj [("x", JNum 10); ("y", JNum 20);
                                    ("width", JNum 30); ("height", JNum 40)]);
                     ("confidence", JNum 0.9)]]);
        ("timestamp", JStr "2025-01-01T00:00:00Z")].

(** The arguments both configurations give the worker. *)
Definition default_args : list jsval :=
  [JStr "/nodes/humanDetection/detect_human.py"; JStr "--method"; JStr "mobilenet";
   JStr "--confidence"; JNum 0.5; JStr "--camera"; JStr "0"; JStr "--no-display"].

(** The node once it has started a worker for [msg1]: without a timer, and
    with the two-second timer. *)
Definition detecting0 : state := fst (on_input env0 msg1 false None init).
Definition detecting2 : state := fst (on_input env2 msg1 false None init).

End Scenario.

(* ===================================================================== *)
(** * The life cycle of the node: further notions                         *)
(* ===================================================================== *)

Module Supervision.
Import JS HumanDetection.
Local Open Scope cmd_scope.

(** The lines the output handler passes to [node.log]: those that are not
    blank and that [JSON.parse] rejects or reads as [null]. *)
Definition logged (line : string) : bool :=
  truthy (JStr (trim line))
  && match JSON_parse line with
     | None => true
     | Some v => nullish v
     end.

(** The lines that [JSON.parse] reads as an object. *)
Definition parses_to_object (line : string) : bool :=
  match JSON_parse line with
  | Some (JObj _) => true
  | _ => false
  end.

(** The two states of the node: idle, with its three variables empty, or
    detecting, with a Request in the slot and its worker, whose listeners
    are live. *)
Definition idle (s : state) : Prop :=
  pythonProcess s = None /\ waitingNode s = None /\ timeoutId s = None.

Definition detecting (s : state) : Prop :=
  exists p m, pythonProcess s = Some p /\ waitingNode s = Some m /\
              is_Some (dataBuffer s !! p).

Record lifecycle (s : state) : Prop := Lifecycle {
  lc_state : idle s \/ detecting s;
  lc_timer : forall t, timeoutId s = Some t <-> t ∈ pending s
}.

(** How often [done()] was called, and how often the node was closed. *)
Definition is_done (x : effect) : bool :=
  match x with Done => true | _ => false end.

Definition is_node_close (ev : event) : bool :=
  match ev with NodeClose => true | _ => false end.

(** What became of the workers and timers of a stretch of the node's
    life, from state [s] to state [s'] with effects [out]: a worker that
    was current or was spawned is current at the end or was sent [kill()];
    a timer that was current or was armed is current at the end or was
    passed to [clearTimeout]. *)
Definition accounted (s : state) (out : list effect) (s' : state) : Prop :=
  (forall p, pythonProcess s = Some p \/ (exists c a, In (Spawn p c a) out) ->
             pythonProcess s' = Some p \/ In (Kill p) out) /\
  (forall t, timeoutId s = Some t \/ (exists ms, In (SetTimeout t ms) out) ->
             timeoutId s' = Some t \/ In (ClearTimeout t) out).

(** The status the editor displays once the effects [out] have happened,
    [current] being displayed before. *)
Fixpoint displayed (current : option status) (out : list effect) : option status :=
  match out with
  | [] => current
  | Status st :: out' => displayed (Some st) out'
  | _ :: out' => displayed current out'
  end.

(** The statuses a node can be left with: none, [detecting] and [ready]. *)
Definition steady (st : option status) : bool :=
  match st with
  | Some StatusError | Some (StatusDetected _) => false
  | _ => true
  end.

(** The input handler past its first statement, the call of [cleanup]:
    [on_input] is [cleanup ;; start]. *)
Definition start (e : env) (msg : message) (venv : bool) (thrown : option string)
  : cmd :=
  set_waitingNode msg ;;
  emit (Status StatusDetecting) ;;
  (if truthy (timeout (cfg e)) && gt_zero (timeout (cfg e))
   then setTimeout (mul (timeout (cfg e)) (JNum 1000)) else skip) ;;
  let pythonCmd :=
    if venv then path_join [dirname e; "venv"; "bin"; "python3"] else "python3" in
  match thrown with
  | None => spawn pythonCmd (args_of e)
  | Some m => emit (Error (ReportSpawn m)) ;; emit (Status StatusError) ;; cleanup
  end.

(** What a stretch of the node's life can be required to respect. *)
Definition respects (R : state -> list effect -> state -> Prop) (c : cmd) : Prop :=
  forall s, R s (snd (c s)) (fst (c s)).

(** The events whose handler ends with [cleanup] whatever the state. *)
Definition tears_down (ev : event) : bool :=
  match ev with
  | Close _ _ | ProcError _ _ | NodeClose | ResetNodeState => true
  | _ => false
  end.

(** The inputs that start a worker, and the workers started. *)
Definition starts_worker (ev : event) : bool :=
  match ev with Input _ _ None => true | _ => false end.

Definition is_spawn (x : effect) : bool :=
  match x with Spawn _ _ _ => true | _ => false end.

(** The workers started by the effects [out], in order. *)
Fixpoint workers (out : list effect) : list pid :=
  match out with
  | [] => []
  | Spawn p _ _ :: out' => p :: workers out'
  | _ :: out' => workers out'
  end.

(** Effects that leave a steady status on display if there was one. *)
Definition settles (out : list effect) : Prop :=
  forall current, steady current = true -> steady (displayed current out) = true.

(** A stretch of the node's life that keeps an idle node idle and that,
    if it reports an error, ends with the node idle. *)
Definition failsafe (s : state) (out : list effect) (s' : state) : Prop :=
  (idle s -> idle s') /\ ((exists r, In (Error r) out) -> idle s').

End Supervision.

(* ===================================================================== *)
(** * The appointment nodes                                               *)
(* ===================================================================== *)

(** The nodes [save appointment] (src/unnamed/part_000), [get appointment]
    (src/getAppointment/getAppointment.js, first module of the file) and
    [remove appointment] (src/removeAppointment/removeAppointment.js), and
    the fragment of SQLite their statements rely on.

    - The database file holds at most the table [appointments]; its rows
      are kept in the order of their [id], which is the order a scan of the
      table follows.
    - A statement is executed as a whole; [db.run] and [db.get] call the
      callback once, with the error or with the result.
    - A parameter is bound as a text when it is a string; other parameters
      (numbers, booleans, objects) would be converted by the driver and by
      the column affinity, which is not modelled: [execute] has no answer
      for them. *)

Module Appointments.
Import JS.

(** ** The database *)

(** A row of
    [appointments (id INTEGER PRIMARY KEY AUTOINCREMENT, date TEXT NOT NULL,
    time TEXT NOT NULL, patient TEXT NOT NULL, notes TEXT)]. *)
Record row : Type := Row {
  row_id : nat;
  row_date : string;
  row_time : string;
  row_patient : string;
  row_notes : option string
}.

(** The file: the table, once it was created, and the largest [id] ever
    given ([sqlite_sequence], kept for an [AUTOINCREMENT] key). *)
Record database : Type := Database {
  appointments : option (list row);
  sequence : nat
}.

(** A file that was just created. *)
Definition empty : database := {| appointments := None; sequence := 0 |}.

(** The columns a statement of the nodes names. *)
Inductive column : Type := ColDate | ColTime | ColPatient | ColNotes.

Definition column_eqb (a b : column) : bool :=
  match a, b with
  | ColDate, ColDate | ColTime, ColTime
  | ColPatient, ColPatient | ColNotes, ColNotes => true
  | _, _ => false
  end.

Definition name (c : column) : string :=
  match c with
  | ColDate => "date" | ColTime => "time" | ColPatient => "patient" | ColNotes => "notes"
  end.

(** The statements of the nodes; each [?] is a positional parameter. *)
Inductive statement : Type :=
| CreateTable                      (* CREATE TABLE IF NOT EXISTS appointments (...) *)
| InsertInto (cols : list column)  (* INSERT INTO appointments (c1, ...) VALUES (?, ...) *)
| SelectWhere (cols : list column) (* SELECT * FROM appointments WHERE c1 = ? AND ... *)
| DeleteWhere (cols : list column). (* DELETE FROM appointments WHERE c1 = ? AND ... *)

(** What the callback of a statement receives. *)
Inductive reply : Type :=
| Failed (err : string)            (* err, as [String(err)] *)
| Created
| Inserted (lastID : nat)          (* this.lastID *)
| Selected (found : option row)    (* row, or undefined *)
| Deleted (changes : nat).         (* this.changes *)

(** The i-th parameter goes to the i-th [?]. *)
Fixpoint bind (cols : list column) (params : list jsval)
  : option (list (column * string)) :=
  match cols, params with
  | [], [] => Some []
  | c :: cols', JStr v :: params' =>
      b ← bind cols' params'; Some ((c, v) :: b)
  | _, _ => None
  end.

Fixpoint value (c : column) (b : list (column * string)) : option string :=
  match b with
  | [] => None
  | (c', v) :: b' => if column_eqb c c' then Some v else value c b'
  end.

Definition cell (c : column) (r : row) : option string :=
  match c with
  | ColDate => Some (row_date r)
  | ColTime => Some (row_time r)
  | ColPatient => Some (row_patient r)
  | ColNotes => row_notes r
  end.

(** [c1 = ? AND c2 = ? AND ...]: texts are compared byte by byte, and NULL
    equals nothing. *)
Definition matches (b : list (column * string)) (r : row) : bool :=
  forallb (fun '(c, v) =>
             match cell c r with
             | Some x => String.eqb x v
             | None => false
             end) b.

Definition max_id (rows : list row) : nat :=
  fold_right (fun r m => Nat.max (row_id r) m) 0 rows.

(** The [id] an [AUTOINCREMENT] key gives the next row: one more than the
    largest [id] the table has or ever had. *)
Definition next_id (rows : list row) (db : database) : nat :=
  S (Nat.max (sequence db) (max_id rows)).

Definition no_such_table : reply :=
  Failed "Error: SQLITE_ERROR: no such table: appointments".

Definition create_table (db : database) : database :=
  {| appointments := Some (default [] (appointments db));
     sequence := sequence db |}.

(** The execution of a statement: the file afterwards and the reply.
    There is no answer ([None]) for what is not modelled: parameters that
    are no strings or do not number what the [?] number, and an insertion
    that leaves out a [NOT NULL] column. *)
Definition execute (q : statement) (params : list jsval) (db : database)
  : option (database * reply) :=
  match q with
  | CreateTable =>
      match params with
      | [] => Some (create_table db, Created)
      | _ => None
      end
  | InsertInto cols =>
      b ← bind cols params;
      match appointments db with
      | None => Some (db, no_such_table)
      | Some rows =>
          d ← value ColDate b;
          t ← value ColTime b;
          p ← value ColPatient b;
          let r := {| row_id := next_id rows db; row_date := d; row_time := t;
                      row_patient := p; row_notes := value ColNotes b |} in
          Some ({| appointments := Some (rows ++ [r]); sequence := row_id r |},
                Inserted (row_id r))
      end
  | SelectWhere cols =>
      b ← bind cols params;
      match appointments db with
      | None => Some (db, no_such_table)
      | Some rows => Some (db, Selected (List.find (matches b) rows))
      end
  | DeleteWhere cols =>
      b ← bind cols params;
      match appointments db with
      | None => Some (db, no_such_table)
      | Some rows =>
          Some ({| appointments := Some (List.filter (fun r => negb (matches b r)) rows);
                   sequence := sequence db |},
                Deleted (length (List.filter (matches b) rows)))
      end
  end.

(** ** The nodes *)

(** A count or an [id] as a JavaScript number. *)
Definition number (n : nat) : jsval := JNum (dec_to_float false (N.of_nat n) 0).

(** The row [db.get] passes to its callback. *)
Definition row_object (r : row) : jsval :=
  JObj [("id", number (row_id r));
        ("date", JStr (row_date r));
        ("time", JStr (row_time r));
        ("patient", JStr (row_patient r));
        ("notes", match row_notes r with Some n => JStr n | None => JNull end)].

(** What an input handler does before it returns: it throws (a
    [TypeError]), it reports an error and returns, or it hands a statement
    to the database. *)
Inductive request : Type :=
| Threw
| Rejected (text : string)
| Submitted (q : statement) (params : list jsval).

(** What a node lets out. *)
Inductive response : Type :=
| Uncaught                    (* the exception leaves the handler *)
| NodeError (text : string)   (* node.error *)
| NodeSend (msg : object).    (* node.send *)

(** *** save appointment *)

Definition save_query : statement :=
  InsertInto [ColDate; ColTime; ColPatient; ColNotes].

Definition save_input (msg : object) : request :=
  let appt := prop (JObj msg) "payload" in
  if negb (truthy appt) || negb (truthy (prop appt "date"))
     || negb (truthy (prop appt "time")) || negb (truthy (prop appt "patient"))
  then Rejected "Invalid appointment payload. Expected {date, time, patient, notes}"
  else Submitted save_query
         [prop appt "date"; prop appt "time"; prop appt "patient";
          or_else (prop appt "notes") (JStr "")].

Definition save_callback (msg : object) (err : option string) (lastID : jsval)
  : list response :=
  match err with
  | Some e => [NodeError ("Database insert failed: " +:+ e)]
  | None => [NodeSend (set_field "appointment_id" lastID msg)]
  end.

(** *** get appointment *)

Definition get_query : statement := SelectWhere [ColPatient; ColDate; ColTime].

Definition get_input (msg : object) : request :=
  let payload := prop (JObj msg) "payload" in
  if nullish payload then Threw
  else
    let patient := prop payload "patient" in
    let date := prop payload "date" in
    let time := prop payload "time" in
    if negb (truthy patient) || negb (truthy date) || negb (truthy time)
    then Rejected "Invalid payload. Expected {patient, date, time}"
    else Submitted get_query [patient; date; time].

Definition get_callback (msg : object) (err : option string) (row : jsval)
  : list response :=
  match err with
  | Some e => [NodeError ("Database query failed: " +:+ e)]
  | None => [NodeSend (set_field "payload" (or_else row JNull) msg)]
  end.

(** *** remove appointment *)

Definition remove_query : statement := DeleteWhere [ColDate; ColTime; ColPatient].

Definition remove_input (msg : object) : request :=
  let appt := prop (JObj msg) "payload" in
  if negb (truthy appt) || negb (truthy (prop appt "date"))
     || negb (truthy (prop appt "time")) || negb (truthy (prop appt "patient"))
  then Rejected "Invalid payload. Expected {date, time, patient}"
  else Submitted remove_query [prop appt "date"; prop appt "time"; prop appt "patient"].

Definition remove_callback (msg : object) (err : option string) (changes : jsval)
  : list response :=
  match err with
  | Some e => [NodeError ("Appointment deletion failed: " +:+ e)]
  | None => [NodeSend (set_field "deleted_count" changes msg)]
  end.

(** *** A message through a node *)

Inductive node : Type := Save | Get | Remove.

Definition input (n : node) (msg : object) : request :=
  match n with
  | Save => save_input msg
  | Get => get_input msg
  | Remove => remove_input msg
  end.

(** The callback of the node called with the reply of the database; a node
    receives the replies of its own statements only. *)
Definition callback (n : node) (msg : object) (r : reply) : option (list response) :=
  match n, r with
  | Save, Failed e => Some (save_callback msg (Some e) JUndefined)
  | Save, Inserted lastID => Some (save_callback msg None (number lastID))
  | Get, Failed e => Some (get_callback msg (Some e) JUndefined)
  | Get, Selected found =>
      Some (get_callback msg None
              (match found with Some r => row_object r | None => JUndefined end))
  | Remove, Failed e => Some (remove_callback msg (Some e) JUndefined)
  | Remove, Deleted changes => Some (remove_callback msg None (number changes))
  | _, _ => None
  end.

(** The input handler, then the statement and the callback. *)
Definition handle (n : node) (msg : object) (db : database)
  : option (database * list response) :=
  match input n msg with
  | Threw => Some (db, [Uncaught])
  | Rejected text => Some (db, [NodeError text])
  | Submitted q params =>
      '(db', r) ← execute q params db;
      out ← callback n msg r;
      Some (db', out)
  end.

(** The constructor of a node opens the file; those of [save appointment]
    and [remove appointment] run [CREATE TABLE IF NOT EXISTS]. *)
Definition open (n : node) (db : database) : database :=
  match n with
  | Get => db
  | Save | Remove => create_table db
  end.


(** The parameter a request binds to a column. *)
Fixpoint at_column (c : column) (cols : list column) (params : list jsval)
  : option jsval :=
  match cols, params with
  | c' :: cols', v :: params' =>
      if column_eqb c c' then Some v else at_column c cols' params'
  | _, _ => None
  end.

Definition bound (c : column) (r : request) : option jsval :=
  match r with
  | Submitted (InsertInto cols) params
  | Submitted (SelectWhere cols) params
  | Submitted (DeleteWhere cols) params => at_column c cols params
  | _ => None
  end.

Definition accepted (r : request) : bool :=
  match r with Submitted _ _ => true | _ => false end.


(** An appointment as the nodes expect it in [msg.payload]. *)
Definition appointment (date time patient : string) (notes : jsval) : jsval :=
  JObj [("date", JStr date); ("time", JStr time); ("patient", JStr patient);
        ("notes", notes)].

End Appointments.

Import JS HumanDetection Scenario.
Local Open Scope cmd_scope.

(* ===================================================================== *)
(** * The platform: numbers *)
(* ===================================================================== *)

Section Numbers.

Lemma Prim2SF_zero : Prim2SF zero = S754_zero false.
Proof. reflexivity. Qed.

(** A number that is at most zero is not greater than zero. *)
Lemma leb_zero_not_gt (x : float) :
  (x <=? zero)%float = true -> (zero <? x)%float = false.
Proof.
  rewrite FloatAxioms.leb_spec, FloatAxioms.ltb_spec, Prim2SF_zero.
  destruct (Prim2SF x) as [sg|sg| |sg m ex]; try destruct sg; cbn; congruence.
Qed.

(** Nor is a number equal to zero ([0] or [-0]). *)
Lemma eqb_zero_not_gt (x : float) :
  (x =? zero)%float = true -> (zero <? x)%float = false.
Proof.
  rewrite FloatAxioms.eqb_spec, FloatAxioms.ltb_spec, Prim2SF_zero.
  destruct (Prim2SF x) as [sg|sg| |sg m ex]; try destruct sg; cbn; congruence.
Qed.

Lemma gt_zero_JNum (x : float) : gt_zero (JNum x) = (zero <? x)%float.
Proof. reflexivity. Qed.

End Numbers.

(* ===================================================================== *)
(** * The platform: the fuel of the parser is enough *)
(* ===================================================================== *)

Section Fuel.

Lemma after_length (c : ascii) (s r : string) :
  after c s = Some r -> String.length s = S (String.length r).
Proof.
  destruct s as [|c' s]; cbn [after]; [discriminate|].
  destruct (Ascii.eqb c' c); [|discriminate]. intros [= <-]. reflexivity.
Qed.

Lemma ws_strip_shorter (s r : string) :
  ws_strip s = Some r -> String.length r < String.length s.
Proof.
  unfold ws_strip. destruct s as [|c s]; [discriminate|].
  destruct (is_ws1 (code c)); [intros [= <-]; cbn; lia|].
  destruct s as [|c2 s]; [discriminate|].
  destruct ((code c =? 194) && (code c2 =? 160))%N; [intros [= <-]; cbn; lia|].
  destruct s as [|c3 s]; [discriminate|].
  destruct (is_ws3 (code c) (code c2) (code c3)); [|discriminate].
  intros [= <-]. cbn. lia.
Qed.

(** [trimStart] leaves no white space in front. *)
Lemma trimStart_done (s : string) : ws_strip (trimStart s) = None.
Proof.
  unfold trimStart.
  assert (H : forall n t, String.length t <= n -> ws_strip (trimStart_aux n t) = None).
  { induction n as [|n IH]; intros t Ht.
    - destruct t; [reflexivity|cbn in Ht; lia].
    - cbn [trimStart_aux]. destruct (ws_strip t) as [r|] eqn:E; [|exact E].
      apply IH. apply ws_strip_shorter in E. lia. }
  apply H. lia.
Qed.

Lemma skip_ws_length (s : string) : String.length (skip_ws s) <= String.length s.
Proof.
  induction s as [|c r IH]; cbn [skip_ws]; [lia|].
  destruct (_ || _)%bool; cbn [String.length]; lia.
Qed.

Lemma digits_length (s : string) : forall acc cnt v n rest,
  digits s acc cnt = (v, n, rest) -> String.length rest <= String.length s.
Proof.
  induction s as [|c r IH]; cbn [digits]; intros acc cnt v n rest.
  - intros [= _ _ <-]. lia.
  - destruct (is_digit c).
    + intros H. apply IH in H. cbn [String.length]. lia.
    + intros [= _ _ <-]. lia.
Qed.

Lemma fraction_length (s : string) (acc v n : N) (rest : string) :
  fraction s acc = Some (v, n, rest) -> String.length rest <= String.length s.
Proof.
  unfold fraction. destruct (after "." s) as [r|] eqn:Ea.
  - apply after_length in Ea.
    destruct (digits r acc 0) as [[v' n'] rest'] eqn:E.
    destruct (n' =? 0)%N; [discriminate|]. intros [= _ _ <-].
    apply digits_length in E. lia.
  - intros [= _ _ <-]. lia.
Qed.

Lemma exponent_length (s : string) (e : Z) (rest : string) :
  exponent s = Some (e, rest) -> String.length rest <= String.length s.
Proof.
  unfold exponent. destruct s as [|c r]; [intros [= _ <-]; lia|].
  destruct (Ascii.eqb c "e" || Ascii.eqb c "E")%bool; [|intros [= _ <-]; lia].
  destruct (match after "+" r, after "-" r with
            | Some r', _ => (false, r')
            | None, Some r' => (true, r')
            | None, None => (false, r)
            end) as [sg r1] eqn:Es.
  assert (Hr1 : String.length r1 <= String.length r).
  { destruct (after "+" r) as [r'|] eqn:E1.
    - injection Es as _ <-. apply after_length in E1. lia.
    - destruct (after "-" r) as [r'|] eqn:E2; injection Es as _ <-; [|lia].
      apply after_length in E2. lia. }
  destruct (digits r1 0 0) as [[v n] rest0] eqn:E.
  destruct (n =? 0)%N; [discriminate|]. intros [= _ <-].
  apply digits_length in E. cbn [String.length]. lia.
Qed.

Lemma json_number_shorter (s : string) (x : float) (rest : string) :
  json_number s = Some (x, rest) -> String.length rest < String.length s.
Proof.
  unfold json_number.
  destruct (match after "-" s with Some r => (true, r) | None => (false, s) end)
    as [neg s1] eqn:Es.
  assert (Hs1 : String.length s1 <= String.length s).
  { destruct (after "-" s) as [r|] eqn:E1; injection Es as _ <-; [|lia].
    apply after_length in E1. lia. }
  destruct s1 as [|c r]; [discriminate|].
  destruct (is_digit c) eqn:Hd; [|discriminate].
  destruct (if Ascii.eqb c "0" then _ else _) as [[ip k] s2] eqn:E.
  assert (Hs2 : String.length s2 <= String.length r).
  { destruct (Ascii.eqb c "0").
    - injection E as _ _ <-. lia.
    - cbn [digits] in E. rewrite Hd in E. apply digits_length in E. exact E. }
  destruct (fraction s2 ip) as [[[m nf] s3]|] eqn:Ef; [|discriminate].
  cbn [mbind option_bind].
  destruct (exponent s3) as [[e s4]|] eqn:Ee; [|discriminate].
  cbn [mbind option_bind]. intros [= _ <-].
  apply fraction_length in Ef. apply exponent_length in Ee.
  cbn [String.length] in Hs1. lia.
Qed.

Lemma strip_prefix_length (p : string) : forall s rest,
  strip_prefix p s = Some rest ->
  String.length s = String.length p + String.length rest.
Proof.
  induction p as [|c p IH]; cbn [strip_prefix]; intros s rest.
  - intros [= <-]. reflexivity.
  - destruct (after c s) as [r|] eqn:E; [|discriminate]. cbn [mbind option_bind].
    intros H. apply IH in H. apply after_length in E. cbn [String.length]. lia.
Qed.

Lemma low_escape_shorter (s : string) (n : N) (r : string) :
  low_escape s = Some (n, r) -> String.length r < String.length s.
Proof.
  unfold low_escape.
  destruct (after "\" s) as [r1|] eqn:E1; [|discriminate]. cbn [mbind option_bind].
  destruct (after "u" r1) as [r2|] eqn:E2; [|discriminate]. cbn [mbind option_bind].
  apply after_length in E1. apply after_length in E2.
  destruct r2 as [|a [|b [|c [|d r']]]]; try discriminate.
  destruct (hex4 a b c d) as [k|]; [|discriminate]. cbn [mbind option_bind].
  destruct (is_low_surrogate k); [|discriminate].
  intros [= _ <-]. cbn [String.length] in *. lia.
Qed.

Ltac string_fuel IH :=
  match goal with
  | |- (json_string ?n ?r ≫= _) = _ -> _ =>
      let E := fresh "E" in
      destruct (json_string n r) as [[? ?]|] eqn:E; [|discriminate];
      rewrite (IH _ _ _ E) by (cbn [String.length] in *; lia); trivial
  end.

(** A string that can be read with some fuel is read, to the same result,
    with any fuel that is at least its length. *)
Lemma json_string_enough (n : nat) : forall m s res,
  json_string n s = Some res -> String.length s <= m -> json_string m s = Some res.
Proof.
  induction n as [|n IH]; intros m s res; [discriminate|].
  destruct s as [|c r]; [discriminate|].
  destruct m as [|m]; [cbn [String.length]; lia|].
  intros H Hm. revert H. cbn [json_string].
  destruct (Ascii.eqb c DQUOTE); [trivial|].
  destruct (Ascii.eqb c "\").
  - destruct r as [|e r2]; [discriminate|].
    repeat match goal with
      | |- (if Ascii.eqb e ?x then _ else _) = _ -> _ =>
          destruct (Ascii.eqb e x); [string_fuel IH|]
      end.
    destruct (Ascii.eqb e "u"); [|discriminate].
    destruct r2 as [|h1 [|h2 [|h3 [|h4 r3]]]]; try discriminate.
    destruct (hex4 h1 h2 h3 h4) as [hi|]; [|discriminate]. cbn [mbind option_bind].
    destruct (if is_high_surrogate hi then low_escape r3 else None)
      as [[lo r4]|] eqn:EL.
    + assert (String.length r4 < String.length r3).
      { destruct (is_high_surrogate hi); [|discriminate].
        apply low_escape_shorter in EL. exact EL. }
      string_fuel IH.
    + string_fuel IH.
  - destruct (code c <? 32)%N; [discriminate|]. string_fuel IH.
Qed.

Lemma json_string_shorter (n : nat) : forall s str rest,
  json_string n s = Some (str, rest) -> String.length rest < String.length s.
Proof.
  induction n as [|n IH]; intros s str rest; [discriminate|].
  destruct s as [|c r]; [discriminate|]. cbn [json_string].
  assert (R : forall (r' : string) (f : string -> string),
             String.length r' <= String.length r ->
             ('(str0, rest0) ← json_string n r'; Some (f str0, rest0)) = Some (str, rest) ->
             String.length rest < String.length (String c r)).
  { intros r' f Hr'. destruct (json_string n r') as [[str0 rest0]|] eqn:E; [|discriminate].
    intros [= _ <-]. apply IH in E. cbn [String.length]. lia. }
  destruct (Ascii.eqb c DQUOTE); [intros [= _ <-]; cbn [String.length]; lia|].
  destruct (Ascii.eqb c "\").
  - destruct r as [|e r2]; [discriminate|].
    repeat match goal with
      | |- (if Ascii.eqb e ?x then _ else _) = _ -> _ =>
          destruct (Ascii.eqb e x);
          [apply (R r2 (String _)); cbn [String.length]; lia|]
      end.
    destruct (Ascii.eqb e "u"); [|discriminate].
    destruct r2 as [|h1 [|h2 [|h3 [|h4 r3]]]]; try discriminate.
    destruct (hex4 h1 h2 h3 h4) as [hi|]; [|discriminate]. cbn [mbind option_bind].
    destruct (if is_high_surrogate hi then low_escape r3 else None)
      as [[lo r4]|] eqn:EL.
    + assert (String.length r4 < String.length r3).
      { destruct (is_high_surrogate hi); [|discriminate].
        apply low_escape_shorter in EL. exact EL. }
      apply (R r4 (fun str0 => utf8 _ +:+ str0)). cbn [String.length]. lia.
    + apply (R r3 (fun str0 => utf8 _ +:+ str0)). cbn [String.length]. lia.
  - destruct (code c <? 32)%N; [discriminate|].
    apply (R r (String c)). lia.
Qed.

(** A value that can be read with some fuel is shorter than the text it was
    read from by at least one character, and is read, to the same result,
    with any fuel that is at least the number of characters consumed; the
    same holds of the rest of an array and of the rest of an object. *)
Lemma json_fuel (n : nat) :
  (forall s v rest, json_value n s = Some (v, rest) ->
     String.length rest < String.length s /\
     forall m, String.length s - String.length rest <= m ->
               json_value m s = Some (v, rest)) /\
  (forall s acc v rest, json_elements n s acc = Some (v, rest) ->
     String.length rest < String.length s /\
     forall m, String.length s - String.length rest <= m ->
               json_elements m s acc = Some (v, rest)) /\
  (forall s acc v rest, json_members n s acc = Some (v, rest) ->
     String.length rest < String.length s /\
     forall m, String.length s - String.length rest <= m ->
               json_members m s acc = Some (v, rest)).
Proof.
  induction n as [|n (IHv & IHe & IHm)]; [repeat split; discriminate|].
  split; [|split].
  - intros s v rest. cbn [json_value].
    pose proof (skip_ws_length s) as Hs.
    destruct (skip_ws s) as [|c r] eqn:Es; [discriminate|].
    cbn [String.length] in Hs.
    pose proof (skip_ws_length r) as Hr.
    destruct (Ascii.eqb c "{") eqn:E1.
    { destruct (after "}" (skip_ws r)) as [r'|] eqn:Ea.
      - intros [= <- <-]. apply after_length in Ea as Hl. split; [lia|].
        intros [|m] Hm; [lia|]. cbn [json_value]. rewrite Es, E1, Ea. reflexivity.
      - intros H. apply IHm in H as [H1 H2]. split; [lia|].
        intros [|m] Hm; [lia|]. cbn [json_value]. rewrite Es, E1, Ea.
        apply H2. lia. }
    destruct (Ascii.eqb c "[") eqn:E2.
    { destruct (after "]" (skip_ws r)) as [r'|] eqn:Ea.
      - intros [= <- <-]. apply after_length in Ea as Hl. split; [lia|].
        intros [|m] Hm; [lia|]. cbn [json_value]. rewrite Es, E1, E2, Ea. reflexivity.
      - intros H. apply IHe in H as [H1 H2]. split; [lia|].
        intros [|m] Hm; [lia|]. cbn [json_value]. rewrite Es, E1, E2, Ea.
        apply H2. lia. }
    destruct (Ascii.eqb c DQUOTE) eqn:E3.
    { destruct (json_string (String.length s) r) as [[str rest']|] eqn:E;
        [|discriminate].
      cbn [mbind option_bind]. intros [= <- <-].
      apply json_string_shorter in E as Hl. split; [lia|].
      intros [|m] Hm; [lia|]. cbn [json_value]. rewrite Es, E1, E2, E3, E.
      reflexivity. }
    destruct (Ascii.eqb c "t") eqn:E4.
    { destruct (strip_prefix "true" (String c r)) as [rest'|] eqn:E; [|discriminate].
      cbn [mbind option_bind]. intros [= <- <-].
      apply strip_prefix_length in E as Hl. cbn [String.length] in Hl.
      split; [lia|].
      intros [|m] Hm; [lia|]. cbn [json_value]. rewrite Es, E1, E2, E3, E4, E.
      reflexivity. }
    destruct (Ascii.eqb c "f") eqn:E5.
    { destruct (strip_prefix "false" (String c r)) as [rest'|] eqn:E; [|discriminate].
      cbn [mbind option_bind]. intros [= <- <-].
      apply strip_prefix_length in E as Hl. cbn [String.length] in Hl.
      split; [lia|].
      intros [|m] Hm; [lia|]. cbn [json_value]. rewrite Es, E1, E2, E3, E4, E5, E.
      reflexivity. }
    destruct (Ascii.eqb c "n") eqn:E6.
    { destruct (strip_prefix "null" (String c r)) as [rest'|] eqn:E; [|discriminate].
      cbn [mbind option_bind]. intros [= <- <-].
      apply strip_prefix_length in E as Hl. cbn [String.length] in Hl.
      split; [lia|].
      intros [|m] Hm; [lia|]. cbn [json_value].
      rewrite Es, E1, E2, E3, E4, E5, E6, E. reflexivity. }
    destruct (json_number (String c r)) as [[x rest']|] eqn:E; [|discriminate].
    cbn [mbind option_bind]. intros [= <- <-].
    apply json_number_shorter in E as Hl. cbn [String.length] in Hl.
    split; [lia|].
    intros [|m] Hm; [lia|]. cbn [json_value].
    rewrite Es, E1, E2, E3, E4, E5, E6, E. reflexivity.
  - intros s acc v rest. cbn [json_elements].
    destruct (json_value n s) as [[v1 rest1]|] eqn:Ev; [|discriminate].
    cbn [mbind option_bind]. apply IHv in Ev as [Hv1 Hv2].
    pose proof (skip_ws_length rest1) as Hr.
    destruct (after "," (skip_ws rest1)) as [r|] eqn:Ea.
    + apply after_length in Ea as Hl.
      intros H. apply IHe in H as [H1 H2]. split; [lia|].
      intros [|m] Hm; [lia|]. cbn [json_elements].
      rewrite (Hv2 m) by lia. cbn [mbind option_bind]. rewrite Ea.
      apply H2. lia.
    + destruct (after "]" (skip_ws rest1)) as [r|] eqn:Eb; [|discriminate].
      apply after_length in Eb as Hl.
      intros [= <- <-]. split; [lia|].
      intros [|m] Hm; [lia|]. cbn [json_elements].
      rewrite (Hv2 m) by lia. cbn [mbind option_bind]. rewrite Ea, Eb.
      reflexivity.
  - intros s acc v rest. cbn [json_members].
    pose proof (skip_ws_length s) as Hs.
    destruct (after DQUOTE (skip_ws s)) as [r|] eqn:E1; [|discriminate].
    apply after_length in E1 as Hl1. cbn [mbind option_bind].
    destruct (json_string (String.length s) r) as [[k rest1]|] eqn:E2; [|discriminate].
    apply json_string_shorter in E2 as Hl2. cbn [mbind option_bind].
    pose proof (skip_ws_length rest1) as Hr1.
    destruct (after ":" (skip_ws rest1)) as [r2|] eqn:E3; [|discriminate].
    apply after_length in E3 as Hl3. cbn [mbind option_bind].
    destruct (json_value n r2) as [[v1 rest2]|] eqn:E4; [|discriminate].
    apply IHv in E4 as [Hv1 Hv2]. cbn [mbind option_bind].
    pose proof (skip_ws_length rest2) as Hr2.
    destruct (after "," (skip_ws rest2)) as [r3|] eqn:E5.
    + apply after_length in E5 as Hl5.
      intros H. apply IHm in H as [H1 H2]. split; [lia|].
      intros [|m] Hm; [lia|]. cbn [json_members].
      rewrite E1. cbn [mbind option_bind]. rewrite E2. cbn [mbind option_bind].
      rewrite E3. cbn [mbind option_bind]. rewrite (Hv2 m) by lia.
      cbn [mbind option_bind]. rewrite E5. apply H2. lia.
    + destruct (after "}" (skip_ws rest2)) as [r3|] eqn:E6; [|discriminate].
      apply after_length in E6 as Hl6.
      intros [= <- <-]. split; [lia|].
      intros [|m] Hm; [lia|]. cbn [json_members].
      rewrite E1. cbn [mbind option_bind]. rewrite E2. cbn [mbind option_bind].
      rewrite E3. cbn [mbind option_bind]. rewrite (Hv2 m) by lia.
      cbn [mbind option_bind]. rewrite E5, E6. reflexivity.
Qed.

(** Whenever some amount of fuel lets the parser read a whole text,
    [JSON_parse] returns what it read: its [None] is a syntax error, never
    a lack of fuel. *)
Theorem JSON_parse_fuel (n : nat) (text : string) (v : jsval) (rest : string) :
  json_value n text = Some (v, rest) -> skip_ws rest = "" ->
  JSON_parse text = Some v.
Proof.
  intros H Hrest. unfold JSON_parse.
  destruct (json_fuel n) as (Hv & _ & _).
  destruct (Hv text v rest H) as [_ Hm].
  rewrite (Hm (S (String.length text))) by lia.
  cbn [mbind option_bind]. rewrite Hrest. reflexivity.
Qed.

(** In particular with the fuel [json_value] gives it. *)
Lemma json_string_fuel (n : nat) (c : ascii) (r : string) (res : string * string) :
  json_string n r = Some res ->
  json_string (String.length (String c r)) r = Some res.
Proof.
  intros H. apply (json_string_enough n _ _ _ H). cbn [String.length]. lia.
Qed.

End Fuel.

(* ===================================================================== *)
(** * The platform: splitting at line feeds *)
(* ===================================================================== *)

Section Demuxer.












End Demuxer.

(* ===================================================================== *)
(** * Effects and outcomes: counting lemmas *)
(* ===================================================================== *)

Section Counting.

Lemma emissions_app (ch : effect -> bool) (a b : list effect) :
  emissions ch (a ++ b) = emissions ch a + emissions ch b.
Proof.
  unfold emissions. rewrite List.filter_app, length_app. reflexivity.
Qed.

Lemma outcome_of_app (a b : list effect) :
  outcome_of (a ++ b) =
  match outcome_of a with Some o => Some o | None => outcome_of b end.
Proof.
  induction a as [|x a IH]; simpl; [reflexivity|].
  destruct (terminal x); [reflexivity|exact IH].
Qed.

(** An output without a terminal signal holds no emission. *)
Lemma quiet_no_emission (out : list effect) :
  outcome_of out = None ->
  emissions on_channel1 out = 0 /\ emissions on_channel2 out = 0.
Proof.
  induction out as [|x out IH]; simpl; [split; reflexivity|].
  destruct x as [[m1|] [m2|]| | | | | | | | |]; simpl; try discriminate;
    intros H; exact (IH H).
Qed.

End Counting.

(* ===================================================================== *)
(** * The emission guard *)
(* ===================================================================== *)

Section Guard.

Lemma guarded_idle_no_emission s out s' :
  guarded s out s' -> waitingNode s = None ->
  waitingNode s' = None /\
  emissions on_channel1 out = 0 /\ emissions on_channel2 out = 0.
Proof.
  intros G H. destruct (g_idle _ _ _ G H) as [[H1 H2]|[H1 (r & H2 & H3 & H4)]].
  - split; [exact H1|]. apply quiet_no_emission, H2.
  - auto.
Qed.

Lemma guarded_app s o1 s1 o2 s2 :
  guarded s o1 s1 -> guarded s1 o2 s2 -> guarded s (o1 ++ o2) s2.
Proof.
  intros G1 G2. constructor.
  - intros H. rewrite outcome_of_app, !emissions_app.
    destruct (g_idle _ _ _ G1 H) as [[H1 Hq]|[H1 (r & Hr & Ha & Hb)]].
    + rewrite Hq. destruct (quiet_no_emission _ Hq) as [-> ->]. simpl.
      exact (g_idle _ _ _ G2 H1).
    + rewrite Hr. right.
      destruct (guarded_idle_no_emission _ _ _ G2 H1) as (? & -> & ->).
      split; [assumption|]. exists r. rewrite Ha, Hb. auto.
  - rewrite !emissions_app.
    destruct (outcome_of o1) as [o|] eqn:Ho.
    + assert (H1 : waitingNode s1 = None) by (apply (g_term _ _ _ G1); congruence).
      destruct (guarded_idle_no_emission _ _ _ G2 H1) as (_ & -> & ->).
      pose proof (g_once _ _ _ G1). lia.
    + destruct (quiet_no_emission _ Ho) as [-> ->].
      pose proof (g_once _ _ _ G2). lia.
  - rewrite outcome_of_app. intros H.
    destruct (outcome_of o1) as [o|] eqn:Ho.
    + assert (H1 : waitingNode s1 = None) by (apply (g_term _ _ _ G1); congruence).
      apply (guarded_idle_no_emission _ _ _ G2 H1).
    + apply (g_term _ _ _ G2 H).
  - intros r. rewrite outcome_of_app, !emissions_app.
    destruct (outcome_of o1) as [o|] eqn:Ho.
    + intros [= ->].
      assert (H1 : waitingNode s1 = None) by (apply (g_term _ _ _ G1); congruence).
      destruct (guarded_idle_no_emission _ _ _ G2 H1) as (_ & -> & ->).
      destruct (g_fail _ _ _ G1 r Ho) as [-> ->]. auto.
    + intros H. destruct (quiet_no_emission _ Ho) as [-> ->].
      exact (g_fail _ _ _ G2 r H).
Qed.

Lemma guards_seq (c1 c2 : cmd) : guards c1 -> guards c2 -> guards (c1 ;; c2).
Proof.
  intros G1 G2 s. unfold seq.
  destruct (c1 s) as [s1 o1] eqn:E1. destruct (c2 s1) as [s2 o2] eqn:E2. simpl.
  eapply guarded_app.
  - specialize (G1 s). rewrite E1 in G1. exact G1.
  - specialize (G2 s1). rewrite E2 in G2. exact G2.
Qed.

(** A piece with no terminal signal that leaves the slot as it found it. *)
Lemma guarded_quiet s out s' :
  outcome_of out = None -> (waitingNode s = None -> waitingNode s' = None) ->
  guarded s out s'.
Proof.
  intros Hq Hw. destruct (quiet_no_emission _ Hq) as [Ha Hb].
  constructor; rewrite ?Hq, ?Ha, ?Hb.
  - intros H. left. auto.
  - lia.
  - intros H. contradiction.
  - intros r H. discriminate.
Qed.

Lemma guarded_refl s : guarded s [] s.
Proof. apply guarded_quiet; auto. Qed.

Lemma guards_skip : guards skip.
Proof. intros s. apply guarded_refl. Qed.

(** An effect that is no terminal signal can be emitted at any time. *)
Lemma guards_emit (x : effect) : terminal x = None -> guards (emit x).
Proof.
  intros H s. unfold emit. simpl.
  apply guarded_quiet; [simpl; rewrite H; reflexivity|auto].
Qed.

Lemma guards_cleanup : guards cleanup.
Proof.
  intros s. unfold cleanup. simpl.
  apply guarded_quiet; [|auto].
  destruct (pythonProcess s), (timeoutId s); reflexivity.
Qed.

(** A terminal signal is allowed when teardown follows at once and, for an
    emission, when the slot was seen occupied. *)
Lemma guards_report (r : report) (st : status) :
  guards (emit (Error r) ;; emit (Status st) ;; cleanup).
Proof.
  intros s. unfold seq, emit, cleanup. simpl.
  constructor; simpl.
  - intros _. right. split; [reflexivity|]. exists r.
    destruct (pythonProcess s), (timeoutId s); auto.
  - destruct (pythonProcess s), (timeoutId s); cbv; lia.
  - reflexivity.
  - intros _ _. destruct (pythonProcess s), (timeoutId s); auto.
Qed.

Lemma guarded_send (x : effect) (rest : cmd) (s : state) :
  emissions on_channel1 [x] + emissions on_channel2 [x] = 1 ->
  waitingNode s <> None ->
  (forall s0, outcome_of (snd (rest s0)) = None /\ waitingNode (fst (rest s0)) = None) ->
  guarded s (snd ((emit x ;; rest) s)) (fst ((emit x ;; rest) s)).
Proof.
  intros Hx Hw Hrest. unfold seq, emit.
  destruct (rest s) as [s1 o1] eqn:E. simpl.
  destruct (Hrest s) as [Hq Hn]. rewrite E in Hq, Hn. simpl in Hq, Hn.
  destruct (quiet_no_emission _ Hq) as [Ha Hb].
  assert (Ht : exists o, terminal x = Some o /\ forall r, o <> Failure r).
  { destruct x as [[m1|] [m2|]| | | | | | | | |]; simpl in Hx; try discriminate;
      eexists; (split; [reflexivity|]); intros r; discriminate. }
  destruct Ht as (o & Ht & Hnf).
  change (x :: o1) with ([x] ++ o1).
  constructor; rewrite ?emissions_app, ?Ha, ?Hb.
  - intros H. contradiction.
  - lia.
  - intros _. exact Hn.
  - intros r. simpl. rewrite Ht. intros [= ->]. destruct (Hnf r). reflexivity.
Qed.

End Guard.

Section HandlersGuard.

Lemma guards_of (c : cmd) s s' out : guards c -> c s = (s', out) -> guarded s out s'.
Proof. intros G E. specialize (G s). rewrite E in G. exact G. Qed.

Lemma guarded_start s0 s out s' :
  waitingNode s0 = waitingNode s -> guarded s out s' -> guarded s0 out s'.
Proof.
  intros E [H1 H2 H3 H4]. constructor; auto. rewrite E. exact H1.
Qed.

Lemma cleanup_quiet s0 :
  outcome_of (snd (cleanup s0)) = None /\ waitingNode (fst (cleanup s0)) = None.
Proof.
  unfold cleanup. simpl. destruct (pythonProcess s0), (timeoutId s0); auto.
Qed.

Lemma guards_timeoutHandler : guards timeoutHandler.
Proof.
  intros s. unfold timeoutHandler.
  destruct (waitingNode s) as [w|] eqn:Hw.
  - apply guarded_send; [reflexivity|congruence|apply cleanup_quiet].
  - apply guarded_refl.
Qed.

Lemma guarded_on_result result s s' out :
  on_result result s = Some (s', out) -> guarded s out s'.
Proof.
  unfold on_result. destruct (nullish result); [discriminate|].
  intros [= E]. revert E.
  destruct (truthy (prop result "error")).
  { apply guards_of, guards_report. }
  destruct (is_string (prop result "status") "ready").
  { apply guards_of, guards_emit. reflexivity. }
  destruct (is_string (prop result "status") "detected" && gt_zero (prop result "count")).
  - destruct (waitingNode s) as [w|] eqn:Hw.
    + intros E.
      match type of E with ?c s = _ =>
        assert (G : guarded s (snd (c s)) (fst (c s))) end.
      { apply guarded_send; [reflexivity|congruence|].
        intros s0. unfold seq, emit.
        destruct (cleanup_quiet s0) as [Hq Hn].
        destruct (cleanup s0) as [s1 o1]. simpl in *. auto. }
      rewrite E in G. exact G.
    + intros [= <- <-]. apply guarded_refl.
  - intros [= <- <-]. apply guarded_refl.
Qed.

Lemma guards_on_line (line : string) : guards (on_line line).
Proof.
  intros s. unfold on_line.
  destruct (truthy (JStr (trim line))); [|apply guarded_refl].
  destruct (JSON_parse line) as [result|].
  - destruct (on_result result s) as [[s' out]|] eqn:E.
    + simpl. eapply guarded_on_result, E.
    + apply (guards_emit (Log line)). reflexivity.
  - apply (guards_emit (Log line)). reflexivity.
Qed.

Lemma guards_forEach {A : Type} (f : A -> cmd) (l : list A) :
  (forall x, guards (f x)) -> guards (forEach f l).
Proof.
  intros Hf. induction l as [|x l IH]; simpl.
  - apply guards_skip.
  - apply guards_seq; [apply Hf|exact IH].
Qed.

Lemma guards_set_dataBuffer p buf : guards (set_dataBuffer p buf).
Proof. intros s. apply guarded_quiet; auto. Qed.

Lemma guards_on_close code : guards (on_close code).
Proof.
  unfold on_close. destruct code as [c|]; [|apply guards_cleanup].
  destruct (negb (c =? 0)%Z); [apply guards_report|apply guards_cleanup].
Qed.

Lemma guards_on_error msg : guards (on_error msg).
Proof. apply guards_report. Qed.

Lemma guards_on_node_close : guards on_node_close.
Proof.
  apply guards_seq; [apply guards_cleanup|apply guards_emit; reflexivity].
Qed.

(** Every event but a new input respects the guard. *)
Lemma guards_some (c : cmd) s s' out :
  guards c -> Some (c s) = Some (s', out) -> guarded s out s'.
Proof. intros G E. apply (guards_of c); [exact G|congruence]. Qed.

Lemma guarded_step e s ev s' out :
  is_input ev = false -> step e s ev = Some (s', out) -> guarded s out s'.
Proof.
  destruct ev as [msg venv thrown|p data|p data|p code|p msg|t| |];
    intros Hi; try discriminate Hi; unfold step.
  - unfold on_stdout. destruct (dataBuffer s !! p) as [buffer|]; [|discriminate].
    cbn [mbind option_bind]. destruct (feed buffer data) as [lines rest].
    apply guards_some.
    apply guards_seq; [apply guards_set_dataBuffer|].
    apply guards_forEach, guards_on_line.
  - destruct (dataBuffer s !! p); [|discriminate]. cbn [mbind option_bind].
    apply guards_some, guards_emit. reflexivity.
  - destruct (dataBuffer s !! p); [|discriminate]. cbn [mbind option_bind].
    intros E. apply (guarded_start s (forget_worker p s)); [reflexivity|].
    revert E. apply guards_some, guards_on_close.
  - destruct (dataBuffer s !! p); [|discriminate]. cbn [mbind option_bind].
    apply guards_some, guards_on_error.
  - destruct (decide (t ∈ pending s)); [|discriminate]. intros E.
    apply (guarded_start s (fired t s)); [reflexivity|].
    revert E. apply guards_some, guards_timeoutHandler.
  - apply guards_some, guards_on_node_close.
  - destruct (events e); [|discriminate].
    apply guards_some, guards_cleanup.
Qed.

Lemma guarded_run e evs : forall s s' out,
  no_input evs = true -> run e s evs = Some (s', out) -> guarded s out s'.
Proof.
  induction evs as [|ev evs IH]; simpl; intros s s' out Hn.
  - intros [= <- <-]. apply guarded_refl.
  - apply andb_prop in Hn as [Hev Hn]. apply negb_true_iff in Hev.
    destruct (step e s ev) as [[s1 o1]|] eqn:E1; [|discriminate]. simpl.
    destruct (run e s1 evs) as [[s2 o2]|] eqn:E2; [|discriminate]. simpl.
    intros [= <- <-].
    eapply guarded_app; [eapply guarded_step; eassumption|eapply IH; eassumption].
Qed.

(** The start of a Request: the input handler emits on no channel, and when
    it reports an error (spawn threw) it leaves the slot empty. *)
Lemma on_input_start e msg venv thrown s :
  let r := on_input e msg venv thrown s in
  emissions on_channel1 (snd r) = 0 /\ emissions on_channel2 (snd r) = 0 /\
  (outcome_of (snd r) <> None -> waitingNode (fst r) = None) /\
  (outcome_of (snd r) = None \/
   exists m, thrown = Some m /\ outcome_of (snd r) = Some (Failure (ReportSpawn m))).
Proof.
  unfold on_input, seq, cleanup, set_waitingNode, emit, setTimeout, spawn, skip.
  destruct (truthy (timeout (cfg e)) && gt_zero (timeout (cfg e)));
    destruct thrown as [m|]; destruct (pythonProcess s), (timeoutId s); cbn;
    (split; [reflexivity|split; [reflexivity|split;
       [ intros H; first [reflexivity | exfalso; apply H; reflexivity]
       | first [left; reflexivity | right; exists m; split; reflexivity]]]]).
Qed.

End HandlersGuard.

(* ===================================================================== *)
(** * Teardown, timers, and how a Request ends *)
(* ===================================================================== *)

Section Teardown.

(** Teardown of an idle node only resets the status. *)
Lemma cleanup_idle (s : state) :
  pythonProcess s = None -> timeoutId s = None -> waitingNode s = None ->
  cleanup s = (s, [Status StatusClear]).
Proof.
  destruct s as [pp wn ti db pe sp ar]. simpl. intros -> -> ->. reflexivity.
Qed.

End Teardown.

Section TimeoutRace.

(** The input handler arms a timer exactly when [config.timeout] is truthy
    and greater than zero. *)
Lemma on_input_timer e msg venv thrown s :
  truthy (timeout (cfg e)) && gt_zero (timeout (cfg e)) = false ->
  timeoutId (fst (on_input e msg venv thrown s)) = None /\
  (forall t ms, ~ In (SetTimeout t ms) (snd (on_input e msg venv thrown s))) /\
  pending (fst (on_input e msg venv thrown s)) ⊆ pending s.
Proof.
  intros H. unfold on_input. rewrite H.
  unfold seq, cleanup, set_waitingNode, emit, setTimeout, spawn, skip.
  destruct thrown as [m|]; destruct (pythonProcess s), (timeoutId s); cbn;
    (split; [reflexivity|split; [|first [done|apply subseteq_difference_l; done]]]);
    intros t' ms Hin; repeat (destruct Hin as [Hin|Hin]; [discriminate|]); exact Hin.
Qed.

Lemma no_timeout_configured (v : jsval) :
  v = JUndefined \/ (ToNumber v <=? zero)%float = true ->
  truthy v && gt_zero v = false.
Proof.
  intros [->|Hx]; [reflexivity|].
  unfold gt_zero. rewrite (leb_zero_not_gt _ Hx). apply andb_false_r.
Qed.

End TimeoutRace.

Section Resolution.

Lemma loud_seq (c1 c2 : cmd) : loud c1 -> loud c2 -> loud (c1 ;; c2).
Proof.
  intros L1 L2 s Hw. unfold seq.
  specialize (L1 s Hw).
  destruct (c1 s) as [s1 o1]. specialize (L2 s1).
  destruct (c2 s1) as [s2 o2]. cbn [fst snd] in *.
  intros H2. rewrite outcome_of_app.
  destruct (waitingNode s1) as [w|] eqn:E1.
  - destruct (outcome_of o1); [discriminate|]. apply L2; [discriminate|exact H2].
  - specialize (L1 eq_refl). destruct (outcome_of o1); [discriminate|contradiction].
Qed.

Lemma loud_still (c : cmd) :
  (forall s, waitingNode (fst (c s)) = waitingNode s) -> loud c.
Proof. intros H s Hw Hn. rewrite H in Hn. contradiction. Qed.

Lemma loud_terminal (x : effect) (rest : cmd) :
  terminal x <> None -> loud (emit x ;; rest).
Proof.
  intros Hx s _ _. unfold seq, emit. destruct (rest s) as [s1 o1].
  cbn. destruct (terminal x); [discriminate|contradiction].
Qed.

Lemma loud_timeoutHandler : loud timeoutHandler.
Proof.
  intros s Hw. unfold timeoutHandler.
  destruct (waitingNode s) as [w|]; [|contradiction].
  intros _. unfold seq, emit. destruct (cleanup s). discriminate.
Qed.

Lemma loud_on_line (line : string) : loud (on_line line).
Proof.
  intros s Hw. unfold on_line.
  destruct (truthy (JStr (trim line))); [|intros H; contradiction].
  destruct (JSON_parse line) as [result|]; [|intros H; contradiction].
  unfold on_result. destruct (nullish result); [intros H; contradiction|].
  destruct (truthy (prop result "error")).
  { intros _. unfold seq, emit. destruct (cleanup s). discriminate. }
  destruct (is_string (prop result "status") "ready"); [intros H; contradiction|].
  destruct (is_string (prop result "status") "detected" && gt_zero (prop result "count"));
    [|intros H; contradiction].
  destruct (waitingNode s) as [w|]; [|contradiction].
  intros _. unfold seq, emit. destruct (cleanup s). discriminate.
Qed.

Lemma loud_forEach {A : Type} (f : A -> cmd) (l : list A) :
  (forall x, loud (f x)) -> loud (forEach f l).
Proof.
  intros Hf. induction l as [|x l IH]; cbn [forEach].
  - apply loud_still. reflexivity.
  - apply loud_seq; [apply Hf|exact IH].
Qed.

(** Only a silent event empties the slot without a terminal signal. *)
Lemma loud_step e s ev s' out :
  is_input ev = false -> silent ev = false ->
  step e s ev = Some (s', out) ->
  waitingNode s <> None -> waitingNode s' = None -> outcome_of out <> None.
Proof.
  assert (L : forall (c : cmd) s0, loud c -> waitingNode s0 = waitingNode s ->
                Some (c s0) = Some (s', out) ->
                waitingNode s <> None -> waitingNode s' = None ->
                outcome_of out <> None).
  { intros c s0 Lc E0 [= E] Hw Hn. specialize (Lc s0). rewrite E in Lc.
    apply Lc; [rewrite E0; exact Hw|exact Hn]. }
  destruct ev as [msg venv thrown|p data|p data|p code|p msg|t| |];
    intros Hi Hs; try discriminate Hi; try discriminate Hs; unfold step.
  - unfold on_stdout. destruct (dataBuffer s !! p) as [buffer|]; [|discriminate].
    cbn [mbind option_bind]. destruct (feed buffer data) as [lines rest].
    apply L; [|reflexivity].
    apply loud_seq; [apply loud_still; reflexivity|].
    apply loud_forEach, loud_on_line.
  - destruct (dataBuffer s !! p); [|discriminate]. cbn [mbind option_bind].
    apply L; [|reflexivity]. apply loud_still. reflexivity.
  - destruct (dataBuffer s !! p); [|discriminate]. cbn [mbind option_bind].
    apply L; [|reflexivity]. unfold on_close.
    destruct code as [c|]; [|discriminate Hs]. cbn [silent] in Hs. rewrite Hs.
    apply loud_terminal. discriminate.
  - destruct (dataBuffer s !! p); [|discriminate]. cbn [mbind option_bind].
    apply L; [|reflexivity]. apply loud_terminal. discriminate.
  - destruct (decide (t ∈ pending s)); [|discriminate].
    apply L; [|reflexivity]. apply loud_timeoutHandler.
Qed.

Lemma loud_run e evs : forall s s' out,
  no_input evs = true -> run e s evs = Some (s', out) ->
  waitingNode s <> None -> waitingNode s' = None ->
  outcome_of out <> None \/ existsb silent evs = true.
Proof.
  induction evs as [|ev evs IH]; cbn [run no_input forallb existsb]; intros s s' out Hn.
  - intros [= <- <-] Hw Hn'. contradiction.
  - apply andb_prop in Hn as [Hev Hn]. apply negb_true_iff in Hev.
    destruct (step e s ev) as [[s1 o1]|] eqn:E1; [|discriminate].
    cbn [mbind option_bind].
    destruct (run e s1 evs) as [[s2 o2]|] eqn:E2; [|discriminate].
    cbn [mbind option_bind]. intros [= <- <-] Hw Hn'.
    destruct (silent ev) eqn:Hs; [right; reflexivity|]. cbn [orb].
    rewrite outcome_of_app.
    destruct (waitingNode s1) as [w|] eqn:Hw1.
    + destruct (IH s1 s2 o2 Hn E2) as [H|H]; [congruence|exact Hn'| |right; exact H].
      left. destruct (outcome_of o1); [discriminate|exact H].
    + left. pose proof (loud_step e s ev s1 o1 Hev Hs E1 Hw Hw1).
      destruct (outcome_of o1); [discriminate|contradiction].
Qed.

(** After the input handler the slot holds the message, unless [spawn]
    threw, which was reported. *)
Lemma on_input_slot e msg venv thrown s :
  let r := on_input e msg venv thrown s in
  waitingNode (fst r) = Some msg /\ outcome_of (snd r) = None \/
  waitingNode (fst r) = None /\ outcome_of (snd r) <> None.
Proof.
  unfold on_input, seq, cleanup, set_waitingNode, emit, setTimeout, spawn, skip.
  destruct (truthy (timeout (cfg e)) && gt_zero (timeout (cfg e)));
    destruct thrown as [m|]; destruct (pythonProcess s), (timeoutId s); cbn;
    first [left; split; reflexivity | right; split; [reflexivity|discriminate]].
Qed.

(** A node without live worker or pending timer has nothing more to say
    until the next input. *)
Lemma dead_quiet e evs : forall s s' out,
  dataBuffer s = ∅ -> pending s = ∅ ->
  no_input evs = true -> run e s evs = Some (s', out) -> outcome_of out = None.
Proof.
  assert (Hc : forall s, dataBuffer s = ∅ -> pending s = ∅ ->
                outcome_of (snd (cleanup s)) = None /\
                dataBuffer (fst (cleanup s)) = ∅ /\ pending (fst (cleanup s)) = ∅).
  { intros s Hd Hp. split; [apply cleanup_quiet|]. unfold cleanup. cbn.
    rewrite Hd, Hp. destruct (timeoutId s); split; try reflexivity.
    apply empty_difference_L. }
  induction evs as [|ev evs IH]; cbn [run no_input forallb]; intros s s' out Hd Hp Hn.
  - intros [= <- <-]. reflexivity.
  - apply andb_prop in Hn as [Hev Hn].
    destruct (Hc s Hd Hp) as (Hq & Hd1 & Hp1).
    destruct ev as [msg venv thrown|p data|p data|p code|p msg|t| |];
      [discriminate Hev| | | | | | |]; unfold step, on_stdout.
    + rewrite Hd, lookup_empty. discriminate.
    + rewrite Hd, lookup_empty. discriminate.
    + rewrite Hd, lookup_empty. discriminate.
    + rewrite Hd, lookup_empty. discriminate.
    + rewrite Hp. destruct (decide (t ∈ ∅)) as [Hin|_]; [|discriminate].
      apply not_elem_of_empty in Hin. contradiction.
    + cbn [mbind option_bind]. unfold on_node_close, seq, emit.
      destruct (cleanup s) as [s1 o1]. cbn [fst snd] in *.
      destruct (run e s1 evs) as [[s2 o2]|] eqn:E2; [|discriminate].
      cbn [mbind option_bind]. intros [= <- <-].
      rewrite !outcome_of_app, Hq. cbn [outcome_of terminal].
      eapply IH; eassumption.
    + destruct (events e); [|discriminate]. cbn [mbind option_bind].
      destruct (cleanup s) as [s1 o1]. cbn [fst snd] in *.
      destruct (run e s1 evs) as [[s2 o2]|] eqn:E2; [|discriminate].
      cbn [mbind option_bind]. intros [= <- <-].
      rewrite outcome_of_app, Hq. eapply IH; eassumption.
Qed.

End Resolution.

(* ===================================================================== *)
(** * Reachable states and spent timers *)
(* ===================================================================== *)

Section Supersession.

(** Outside the input handler the node only ever tears down: a line leaves
    the state as it is or as [cleanup] leaves it. *)
Lemma on_line_state (line : string) (s : state) :
  fst (on_line line s) = s \/ fst (on_line line s) = fst (cleanup s).
Proof.
  unfold on_line. destruct (truthy (JStr (trim line))); [|left; reflexivity].
  destruct (JSON_parse line) as [result|]; [|left; reflexivity].
  unfold on_result. destruct (nullish result); [left; reflexivity|].
  destruct (truthy (prop result "error")); [right; reflexivity|].
  destruct (is_string (prop result "status") "ready"); [left; reflexivity|].
  destruct (is_string (prop result "status") "detected" && gt_zero (prop result "count"));
    [|left; reflexivity].
  destruct (waitingNode s); [right|left]; reflexivity.
Qed.

Lemma forEach_on_line_state (lines : list string) : forall s,
  fst (forEach on_line lines s) = s \/ fst (forEach on_line lines s) = fst (cleanup s).
Proof.
  induction lines as [|l lines IH]; intros s; [left; reflexivity|].
  cbn [forEach]. unfold seq.
  pose proof (on_line_state l s) as H1.
  destruct (on_line l s) as [s1 o1]. cbn [fst] in H1.
  pose proof (IH s1) as H2.
  destruct (forEach on_line lines s1) as [s2 o2]. cbn [fst] in *.
  destruct H1 as [->| ->]; [exact H2|].
  right. destruct H2 as [->| ->]; reflexivity.
Qed.

Lemma step_state e s ev s' out :
  is_input ev = false -> step e s ev = Some (s', out) ->
  exists s0, bookkeeping s s0 /\ (s' = s0 \/ s' = fst (cleanup s0)).
Proof.
  destruct ev as [msg venv thrown|p data|p data|p code|p msg|t| |];
    intros Hi; try discriminate Hi; unfold step.
  - unfold on_stdout. destruct (dataBuffer s !! p) as [buffer|]; [|discriminate].
    cbn [mbind option_bind]. destruct (feed buffer data) as [lines rest].
    unfold seq. destruct (set_dataBuffer p rest s) as [s1 o1] eqn:E1.
    pose proof (forEach_on_line_state lines s1) as H.
    destruct (forEach on_line lines s1) as [s2 o2]. cbn [fst] in H.
    intros [= <- <-]. exists s1. split; [|exact H].
    replace s1 with (fst (set_dataBuffer p rest s)) by (rewrite E1; reflexivity).
    constructor.
  - destruct (dataBuffer s !! p); [|discriminate]. cbn [mbind option_bind].
    intros [= <- <-]. exists s. split; [constructor|left; reflexivity].
  - destruct (dataBuffer s !! p); [|discriminate]. cbn [mbind option_bind].
    intros E. exists (forget_worker p s). split; [constructor|].
    right. unfold on_close in E.
    destruct code as [c|]; [destruct (negb (c =? 0)%Z)|]; injection E as <- _; reflexivity.
  - destruct (dataBuffer s !! p); [|discriminate]. cbn [mbind option_bind].
    intros [= <- _]. exists s. split; [constructor|right; reflexivity].
  - destruct (decide (t ∈ pending s)); [|discriminate].
    intros E. exists (fired t s). split; [constructor|].
    unfold timeoutHandler in E.
    destruct (waitingNode (fired t s)); injection E as <- _; [right|left]; reflexivity.
  - intros [= <- _]. exists s. split; [constructor|right; reflexivity].
  - destruct (events e); [|discriminate].
    intros [= <- _]. exists s. split; [constructor|right; reflexivity].
Qed.

Lemma consistent_init : consistent init.
Proof.
  constructor; cbn; try discriminate; try contradiction.
Qed.

(** After teardown no timer is pending. *)
Lemma cleanup_none_pending s t :
  consistent s -> t ∉ pending (fst (cleanup s)).
Proof.
  intros [H1 H2 H3]. cbn. destruct (timeoutId s) as [t0|] eqn:Ht.
  - intros H. apply elem_of_difference in H as [H Hn].
    destruct (H2 t H) as [[= ->] _]. apply Hn, elem_of_singleton. reflexivity.
  - intros H. destruct (H2 t H) as [[=] _].
Qed.

Lemma consistent_cleanup s : consistent s -> consistent (fst (cleanup s)).
Proof.
  intros C. constructor; try (cbn; try discriminate; contradiction).
  intros t H. destruct (cleanup_none_pending s t C H).
Qed.

Lemma consistent_bookkeeping s s0 : bookkeeping s s0 -> consistent s -> consistent s0.
Proof.
  intros B [H1 H2 H3]. destruct B; constructor; cbn; auto.
  intros t' H. apply elem_of_difference in H as [H _]. apply H2, H.
Qed.

Lemma consistent_on_input e msg venv thrown s :
  consistent s -> consistent (fst (on_input e msg venv thrown s)).
Proof.
  intros C.
  pose proof (fun t => cleanup_none_pending s t C) as Hp.
  unfold on_input, seq, set_waitingNode, emit, setTimeout, spawn, skip.
  destruct (cleanup s) as [s1 o1] eqn:E1.
  assert (Ht : timeoutId s1 = None)
    by (unfold cleanup in E1; injection E1 as <- _; reflexivity).
  cbn [fst] in Hp.
  destruct (truthy (timeout (cfg e)) && gt_zero (timeout (cfg e)));
    destruct thrown as [m|]; cbn; constructor; cbn;
    try discriminate; try contradiction;
    try (intros t [= <-]; lia);
    try (rewrite Ht; discriminate);
    intros t H; rewrite ?Ht in H;
    repeat match goal with
      | H : _ ∈ _ ∖ _ |- _ => apply elem_of_difference in H as [H ?]
      | H : _ ∈ _ ∪ _ |- _ => apply elem_of_union in H as [H|H]
      | H : _ ∈ {[ _ ]} |- _ => apply elem_of_singleton in H; subst
      end;
    try (destruct (Hp _ H));
    try (split; [reflexivity|discriminate]);
    try (exfalso; match goal with Hn : _ ∉ {[ _ ]} |- _ =>
                    apply Hn, elem_of_singleton; reflexivity end).
Qed.

Lemma consistent_step e s ev s' out :
  consistent s -> step e s ev = Some (s', out) -> consistent s'.
Proof.
  intros C. destruct (is_input ev) eqn:Hi.
  - destruct ev as [msg venv thrown| | | | | | |]; try discriminate Hi.
    cbn [step]. intros [= E].
    replace s' with (fst (on_input e msg venv thrown s)) by (rewrite E; reflexivity).
    apply consistent_on_input, C.
  - intros E. destruct (step_state e s ev s' out Hi E) as (s0 & B & [->| ->]).
    + eapply consistent_bookkeeping; eassumption.
    + apply consistent_cleanup. eapply consistent_bookkeeping; eassumption.
Qed.

Lemma consistent_run e evs : forall s s' out,
  consistent s -> run e s evs = Some (s', out) -> consistent s'.
Proof.
  induction evs as [|ev evs IH]; cbn [run]; intros s s' out C.
  - intros [= <- _]. exact C.
  - destruct (step e s ev) as [[s1 o1]|] eqn:E1; [|discriminate].
    cbn [mbind option_bind].
    destruct (run e s1 evs) as [[s2 o2]|] eqn:E2; [|discriminate].
    cbn [mbind option_bind]. intros [= <- _].
    eapply IH; [|exact E2]. eapply consistent_step; eassumption.
Qed.

Lemma spent_cleanup t s : spent t s -> spent t (fst (cleanup s)).
Proof.
  intros [H1 H2]. split; [exact H1|]. cbn.
  destruct (timeoutId s); [|exact H2].
  intros H. apply elem_of_difference in H as [H _]. contradiction.
Qed.

Lemma spent_bookkeeping t s s0 : bookkeeping s s0 -> spent t s -> spent t s0.
Proof.
  intros B [H1 H2]. destruct B; split; cbn; auto.
  intros H. apply elem_of_difference in H as [H _]. contradiction.
Qed.

Lemma spent_on_input t e msg venv thrown s :
  spent t s -> spent t (fst (on_input e msg venv thrown s)).
Proof.
  intros Hs. apply spent_cleanup in Hs.
  unfold on_input, seq, set_waitingNode, emit, setTimeout, spawn, skip.
  destruct (cleanup s) as [s1 o1]. cbn [fst] in Hs. destruct Hs as [H1 H2].
  destruct (truthy (timeout (cfg e)) && gt_zero (timeout (cfg e)));
    destruct thrown as [m|]; cbn; split; cbn; try lia; try assumption;
    intros H;
    repeat match goal with
      | H : _ ∈ match ?x with _ => _ end |- _ => destruct x
      | H : _ ∈ _ ∖ _ |- _ => apply elem_of_difference in H as [H _]
      | H : _ ∈ _ ∪ _ |- _ => apply elem_of_union in H as [H|H]
      | H : _ ∈ {[ _ ]} |- _ => apply elem_of_singleton in H; subst
      end;
    try contradiction; try lia.
Qed.

(** The input handler starts with teardown: what was torn down before does
    not change the state it reaches. *)
Lemma on_input_after_cleanup e msg venv thrown s :
  fst (on_input e msg venv thrown s)
  = fst (on_input e msg venv thrown (fst (cleanup s))).
Proof.
  unfold on_input.
  destruct (truthy (timeout (cfg e)) && gt_zero (timeout (cfg e)));
    destruct thrown; reflexivity.
Qed.

Lemma spent_run t e evs : forall s s' out,
  spent t s -> run e s evs = Some (s', out) -> ~ In (Timer t) evs.
Proof.
  induction evs as [|ev evs IH]; cbn [run]; intros s s' out Hs; [intros _ []|].
  destruct (step e s ev) as [[s1 o1]|] eqn:E1; [|discriminate].
  cbn [mbind option_bind].
  destruct (run e s1 evs) as [[s2 o2]|] eqn:E2; [|discriminate].
  intros _ [->|Hin].
  - cbn [step] in E1. destruct Hs as [_ Hs].
    destruct (decide (t ∈ pending s)); [contradiction|discriminate].
  - revert Hin. eapply IH; [|exact E2].
    destruct (is_input ev) eqn:Hi.
    + destruct ev as [msg venv thrown| | | | | | |]; try discriminate Hi.
      cbn [step] in E1. injection E1 as E1.
      replace s1 with (fst (on_input e msg venv thrown s)) by (rewrite E1; reflexivity).
      apply spent_on_input, Hs.
    + destruct (step_state e s ev s1 o1 Hi E1) as (s0 & B & [->| ->]).
      * eapply spent_bookkeeping; eassumption.
      * apply spent_cleanup. eapply spent_bookkeeping; eassumption.
Qed.

(** What a line does depends on the three variables of the node only, not
    on the worker that wrote it. *)
Lemma cleanup_variables (s s' : state) :
  variables s = variables s' ->
  snd (cleanup s) = snd (cleanup s') /\ variables (fst (cleanup s)) = variables (fst (cleanup s')).
Proof.
  unfold variables, cleanup. cbn [fst snd pythonProcess waitingNode timeoutId].
  intros [= -> _ ->]. split; reflexivity.
Qed.

Lemma on_line_variables (line : string) (s s' : state) :
  variables s = variables s' ->
  snd (on_line line s) = snd (on_line line s') /\
  variables (fst (on_line line s)) = variables (fst (on_line line s')).
Proof.
  intros H. destruct (cleanup_variables s s' H) as [Hc1 Hc2].
  unfold on_line. destruct (truthy (JStr (trim line))); [|split; [reflexivity|exact H]].
  destruct (JSON_parse line) as [result|]; [|split; [reflexivity|exact H]].
  unfold on_result. destruct (nullish result); [split; [reflexivity|exact H]|].
  destruct (truthy (prop result "error")).
  { unfold seq, emit. destruct (cleanup s), (cleanup s'). cbn [fst snd] in *.
    split; [congruence|exact Hc2]. }
  destruct (is_string (prop result "status") "ready"); [split; [reflexivity|exact H]|].
  destruct (is_string (prop result "status") "detected" && gt_zero (prop result "count"));
    [|split; [reflexivity|exact H]].
  assert (Hw : waitingNode s = waitingNode s') by (unfold variables in H; congruence).
  rewrite <- Hw. destruct (waitingNode s); [|split; [reflexivity|exact H]].
  unfold seq, emit. destruct (cleanup s), (cleanup s'). cbn [fst snd] in *.
  split; [congruence|exact Hc2].
Qed.

Lemma forEach_on_line_variables (lines : list string) : forall s s',
  variables s = variables s' ->
  snd (forEach on_line lines s) = snd (forEach on_line lines s').
Proof.
  induction lines as [|l lines IH]; intros s s' H; [reflexivity|].
  cbn [forEach]. unfold seq.
  destruct (on_line_variables l s s' H) as [H1 H2].
  destruct (on_line l s) as [s1 o1], (on_line l s') as [s1' o1'].
  cbn [fst snd] in H1, H2. specialize (IH s1 s1' H2).
  destruct (forEach on_line lines s1), (forEach on_line lines s1').
  cbn [fst snd] in *. congruence.
Qed.

(** The listeners do not look at the worker they belong to: a chunk on the
    standard output of one live worker has the effects it would have on
    that of another whose buffer is the same, and so has a close event. *)
Lemma step_any_worker (e : env) (s : state) (p q : pid) (buffer : string) :
  dataBuffer s !! p = Some buffer -> dataBuffer s !! q = Some buffer ->
  (forall data, snd <$> step e s (Stdout p data) = snd <$> step e s (Stdout q data)) /\
  (forall code, snd <$> step e s (Close p code) = snd <$> step e s (Close q code)).
Proof.
  intros Hp Hq. split.
  - intros data. unfold step, on_stdout. rewrite Hp, Hq. cbn [mbind option_bind].
    destruct (feed buffer data) as [lines rest]. unfold seq.
    pose proof (forEach_on_line_variables lines
                  (fst (set_dataBuffer p rest s)) (fst (set_dataBuffer q rest s))
                  eq_refl) as H.
    cbn [set_dataBuffer fst snd] in *.
    destruct (forEach on_line lines _), (forEach on_line lines _).
    cbn [fst snd fmap option_fmap option_map] in *. congruence.
  - intros code. unfold step. rewrite Hp, Hq. cbn [mbind option_bind].
    destruct code as [c|]; [|reflexivity].
    unfold on_close. destruct (negb (c =? 0)%Z); reflexivity.
Qed.

End Supersession.

(* ===================================================================== *)
(** * C1: at most one emission, none with a failure *)
(* ===================================================================== *)

(** C1. For every Request (an input and the events that follow it up to the
    next input, from any state of the node), the emissions on output 1 and
    on output 2 together number at most one, and when the Request's outcome
    is a failure (its first terminal signal is an error report) neither
    output emits anything. *)
Theorem C1_at_most_one_emission e s msg venv thrown evs s' out :
  no_input evs = true ->
  run e s (Input msg venv thrown :: evs) = Some (s', out) ->
  emissions on_channel1 out + emissions on_channel2 out <= 1 /\
  (forall r, outcome_of out = Some (Failure r) ->
     emissions on_channel1 out = 0 /\ emissions on_channel2 out = 0).
Proof.
  intros Hn. cbn [run step mbind option_bind].
  destruct (on_input e msg venv thrown s) as [s1 o1] eqn:E1.
  destruct (run e s1 evs) as [[s2 o2]|] eqn:E2; [|discriminate].
  cbn [mbind option_bind]. intros [= <- <-].
  pose proof (on_input_start e msg venv thrown s) as Hs.
  rewrite E1 in Hs. cbn [fst snd] in Hs. destruct Hs as (Ha & Hb & Ht & _).
  pose proof (guarded_run e evs s1 s2 o2 Hn E2) as G2.
  assert (G1 : guarded (fst (set_waitingNode msg s)) o1 s1).
  { constructor; rewrite ?Ha, ?Hb; auto; try lia. discriminate. }
  pose proof (guarded_app _ _ _ _ _ G1 G2) as G.
  split; [exact (g_once _ _ _ G)|exact (g_fail _ _ _ G)].
Qed.

(** Scenario A followed by a late error line and a non-zero exit. *)
Lemma C1_witness :
  exists s' out,
    run env0 init [Input msg1 false None; Stdout 0 line_ready;
                   Stdout 0 (line_detected +:+ line_camera); Close 0 (Some 1%Z)]
      = Some (s', out) /\
    emissions on_channel1 out + emissions on_channel2 out <= 1 /\
    (forall r, outcome_of out = Some (Failure r) ->
       emissions on_channel1 out = 0 /\ emissions on_channel2 out = 0).
Proof.
  eexists _, _. split; [vm_compute; reflexivity|].
  eapply (C1_at_most_one_emission env0 init msg1 false None
            [Stdout 0 line_ready; Stdout 0 (line_detected +:+ line_camera);
             Close 0 (Some 1%Z)]);
    [reflexivity|vm_compute; reflexivity].
Defined.

(* ===================================================================== *)
(** * C2: supersession *)
(* ===================================================================== *)

(** C2, as stated, fails in its last part: the node does not tell the
    events of a superseded worker from those of the current one. After a
    second input superseded the first, a detection line that the first
    worker (worker 0, killed) had already written is handled against the
    slot, which now holds the second message: the second Request is
    resolved as a success with the stale detection and its own worker
    (worker 1) is killed. Likewise the close event of the killed worker
    tears the second Request down without any outcome. *)
Lemma C2_counterexample :
  snd <$> run env2 init [Input msg1 false None; Input msg2 false None;
                         Stdout 0 line_detected]
    = Some [Status StatusClear; Status StatusDetecting; SetTimeout 0 (JNum 2000);
            Spawn 0 "python3" default_args;
            Kill 0; ClearTimeout 0; Status StatusClear;
            Status StatusDetecting; SetTimeout 1 (JNum 2000);
            Spawn 1 "python3" default_args;
            Send (Some [("_msgid", JStr "b2"); ("payload", detection)]) None;
            Status (StatusDetected (JNum 1));
            Kill 1; ClearTimeout 1; Status StatusClear] /\
  snd <$> run env2 init [Input msg1 false None; Input msg2 false None;
                         Close 0 None]
    = Some [Status StatusClear; Status StatusDetecting; SetTimeout 0 (JNum 2000);
            Spawn 0 "python3" default_args;
            Kill 0; ClearTimeout 0; Status StatusClear;
            Status StatusDetecting; SetTimeout 1 (JNum 2000);
            Spawn 1 "python3" default_args;
            Kill 1; ClearTimeout 1; Status StatusClear].
Proof. split; vm_compute; reflexivity. Qed.

(** C2 (amended). When an input arrives at a node that was started from its
    initial state and whose slot holds an unresolved Request, the input
    handler kills that Request's worker and clears its timer, if it has
    one, and that timer never fires afterwards; the handler emits on
    neither output, and the only error it can report is that of its own
    spawn. The events of a superseded worker are not filtered: in any state a
    chunk or a close event of one live worker has the effects it would have
    coming from another with the same buffer, be it the current one. *)
Theorem C2_supersession e evs0 s out0 m1 m2 venv thrown :
  run e init evs0 = Some (s, out0) ->
  waitingNode s = Some m1 ->
  (exists p, pythonProcess s = Some p /\
             In (Kill p) (snd (on_input e m2 venv thrown s))) /\
  (forall t, timeoutId s = Some t ->
     In (ClearTimeout t) (snd (on_input e m2 venv thrown s)) /\
     forall evs s3 out3,
       run e (fst (on_input e m2 venv thrown s)) evs = Some (s3, out3) ->
       ~ In (Timer t) evs) /\
  emissions on_channel1 (snd (on_input e m2 venv thrown s)) = 0 /\
  emissions on_channel2 (snd (on_input e m2 venv thrown s)) = 0 /\
  (outcome_of (snd (on_input e m2 venv thrown s)) = None \/
   exists m, thrown = Some m /\
             outcome_of (snd (on_input e m2 venv thrown s))
               = Some (Failure (ReportSpawn m))) /\
  (forall s' p q buffer,
     dataBuffer s' !! p = Some buffer -> dataBuffer s' !! q = Some buffer ->
     (forall data,
        snd <$> step e s' (Stdout p data) = snd <$> step e s' (Stdout q data)) /\
     (forall code,
        snd <$> step e s' (Close p code) = snd <$> step e s' (Close q code))).
Proof.
  intros Hrun Hw.
  pose proof (consistent_run e evs0 init s out0 consistent_init Hrun) as C.
  pose proof (on_input_start e m2 venv thrown s) as (Ha & Hb & _ & Ho).
  split; [|split; [|split; [exact Ha|split; [exact Hb|split; [exact Ho|]]]]];
    [| |intros s' p q buffer; apply step_any_worker].
  - destruct (pythonProcess s) as [p|] eqn:Hp.
    + exists p. split; [reflexivity|].
      unfold on_input, seq, cleanup, set_waitingNode, emit, setTimeout, spawn, skip.
      rewrite Hp.
      destruct (truthy (timeout (cfg e)) && gt_zero (timeout (cfg e)));
        destruct thrown; destruct (timeoutId s); cbn; auto.
    + exfalso. apply (inv_worker s C); congruence.
  - intros t Ht. split.
    + unfold on_input, seq, cleanup, set_waitingNode, emit, setTimeout, spawn, skip.
      rewrite Ht.
      destruct (truthy (timeout (cfg e)) && gt_zero (timeout (cfg e)));
        destruct thrown; destruct (pythonProcess s); cbn; auto.
    + intros evs s3 out3.
      apply spent_run.
      rewrite (on_input_after_cleanup e m2 venv thrown s).
      apply spent_on_input. split.
      * apply (inv_timer s C t Ht).
      * cbn. rewrite Ht. intros H. apply elem_of_difference in H as [_ H].
        apply H, elem_of_singleton. reflexivity.
Qed.

(** The second input of the counterexample: worker 0 is killed, timer 0 is
    cleared and cannot fire, nothing is emitted; after it the two workers
    are heard alike. *)
Lemma C2_witness :
  (exists p, pythonProcess detecting2 = Some p /\
             In (Kill p) (snd (on_input env2 msg2 false None detecting2))) /\
  (forall evs s3 out3,
     run env2 (fst (on_input env2 msg2 false None detecting2)) evs = Some (s3, out3) ->
     ~ In (Timer 0) evs) /\
  snd (on_input env2 msg2 false None detecting2)
    = [Kill 0; ClearTimeout 0; Status StatusClear; Status StatusDetecting;
       SetTimeout 1 (JNum 2000); Spawn 1 "python3" default_args] /\
  snd <$> step env2 (fst (on_input env2 msg2 false None detecting2)) (Stdout 0 line_detected)
    = snd <$> step env2 (fst (on_input env2 msg2 false None detecting2)) (Stdout 1 line_detected).
Proof.
  destruct (C2_supersession env2 [Input msg1 false None] detecting2
              (snd (on_input env2 msg1 false None init) ++ []) msg1 msg2 false None
              eq_refl eq_refl) as (H1 & H2 & _ & _ & _ & H3).
  split; [exact H1|split; [|split; [reflexivity|]]].
  - exact (proj2 (H2 0 eq_refl)).
  - exact (proj1 (H3 (fst (on_input env2 msg2 false None detecting2)) 0 1 ""
                     eq_refl eq_refl) line_detected).
Defined.

(* ===================================================================== *)
(** * C3: how a Request ends *)
(* ===================================================================== *)

(** C3, as stated, fails when the worker exits with code 0 before any
    terminal message: the close handler reports nothing for exit code 0 and
    runs teardown, so the Request ends with no emission and no error
    report, and, the worker and the timer being gone, no later event
    before the next input yields one. *)
Lemma C3_counterexample :
  run env0 init [Input msg1 false None; Stdout 0 line_ready; Close 0 (Some 0%Z)]
    = Some ({| pythonProcess := None; waitingNode := None; timeoutId := None;
               dataBuffer := ∅; pending := ∅; spawned := 1; armed := 0 |},
            [Status StatusClear; Status StatusDetecting;
             Spawn 0 "python3" default_args; Status StatusReady;
             Kill 0; Status StatusClear]) /\
  outcome_of [Status StatusClear; Status StatusDetecting;
              Spawn 0 "python3" default_args; Status StatusReady;
              Kill 0; Status StatusClear] = None /\
  (forall evs s' out,
     no_input evs = true ->
     run env0 {| pythonProcess := None; waitingNode := None; timeoutId := None;
                 dataBuffer := ∅; pending := ∅; spawned := 1; armed := 0 |} evs
       = Some (s', out) ->
     outcome_of out = None).
Proof.
  split; [vm_compute; reflexivity|split; [reflexivity|]].
  intros evs s' out Hn Hr.
  refine (dead_quiet env0 evs _ s' out _ _ Hn Hr); reflexivity.
Qed.

(** C3 (amended). For every trigger the Request has at most one outcome,
    its first terminal signal: as long as the slot holds the Request there
    was none, and once the slot is empty either there was one (success,
    timeout or failure) or one of the events that followed the input was
    silent: a worker that closed with exit code 0 or without one, the
    closing of the node, a state reset. *)
Theorem C3_outcome_or_silent_end e s msg venv thrown evs s' out :
  no_input evs = true ->
  run e s (Input msg venv thrown :: evs) = Some (s', out) ->
  (waitingNode s' <> None -> outcome_of out = None) /\
  (waitingNode s' = None ->
   (exists o, outcome_of out = Some o) \/ existsb silent evs = true).
Proof.
  intros Hn. cbn [run step mbind option_bind].
  destruct (on_input e msg venv thrown s) as [s1 o1] eqn:E1.
  destruct (run e s1 evs) as [[s2 o2]|] eqn:E2; [|discriminate].
  cbn [mbind option_bind]. intros [= <- <-].
  pose proof (on_input_slot e msg venv thrown s) as Hs.
  rewrite E1 in Hs. cbn [fst snd] in Hs.
  pose proof (guarded_run e evs s1 s2 o2 Hn E2) as G2.
  rewrite outcome_of_app. split.
  - intros Hw. destruct Hs as [[Hw1 ->]|[Hw1 Ho1]].
    + destruct (outcome_of o2) eqn:Ho2; [|reflexivity].
      exfalso. apply Hw, (g_term _ _ _ G2). congruence.
    + exfalso. apply Hw. apply (guarded_idle_no_emission _ _ _ G2 Hw1).
  - intros Hw. destruct Hs as [[Hw1 ->]|[Hw1 Ho1]].
    + destruct (loud_run e evs s1 s2 o2 Hn E2) as [H|H];
        [congruence|exact Hw| |right; exact H].
      left. destruct (outcome_of o2) as [o|]; [exists o; reflexivity|contradiction].
    + left. destruct (outcome_of o1) as [o|]; [exists o; reflexivity|contradiction].
Qed.

(** Scenario A ends with a success; the same worker closing with exit code
    0 instead ends the Request by a silent event. *)
Lemma C3_witness :
  (exists s' out,
     run env0 init [Input msg1 false None; Stdout 0 line_ready; Stdout 0 line_detected]
       = Some (s', out) /\
     waitingNode s' = None /\
     ((exists o, outcome_of out = Some o) \/
      existsb silent [Stdout 0 line_ready; Stdout 0 line_detected] = true)) /\
  existsb silent [Stdout 0 line_ready; Close 0 (Some 0%Z)] = true.
Proof.
  split; [|reflexivity].
  destruct (run env0 init [Input msg1 false None; Stdout 0 line_ready; Stdout 0 line_detected])
    as [[s' out]|] eqn:E; [|vm_compute in E; discriminate].
  exists s', out. split; [reflexivity|].
  assert (Hw : waitingNode s' = None).
  { vm_compute in E. injection E as <- _. reflexivity. }
  split; [exact Hw|].
  exact (proj2 (C3_outcome_or_silent_end env0 init msg1 false None
                  [Stdout 0 line_ready; Stdout 0 line_detected] s' out eq_refl E) Hw).
Defined.

(* ===================================================================== *)
(** * C4: the line demuxer *)
(* ===================================================================== *)



(* ===================================================================== *)
(** * C5: the timeout race *)
(* ===================================================================== *)

(** C5. No timer is armed by an input when the configured timeout is absent
    or is, as a number, at most zero. When a pending timer fires while the
    slot holds a Request, output 2 receives the fixed timeout notification,
    output 1 receives nothing, and teardown follows. A timer that fires
    with the slot empty has no effect at all; on a node started from its
    initial state that does not happen, since every teardown clears the
    timer: a timer is pending only while the slot holds a Request. *)
Theorem C5_timeout_race (e : env) (s : state) :
  (forall msg venv thrown,
     timeout (cfg e) = JUndefined \/
     (ToNumber (timeout (cfg e)) <=? zero)%float = true ->
     timeoutId (fst (on_input e msg venv thrown s)) = None /\
     (forall t ms, ~ In (SetTimeout t ms) (snd (on_input e msg venv thrown s))) /\
     pending (fst (on_input e msg venv thrown s)) ⊆ pending s) /\
  (forall t w, t ∈ pending s -> waitingNode s = Some w ->
     let out := Send None (Some [("payload", JStr "No humans detected (timeout)")])
                :: snd (cleanup (fired t s)) in
     step e s (Timer t) = Some (fst (cleanup (fired t s)), out) /\
     outcome_of out = Some (TimedOut timeoutOutput) /\
     emissions on_channel1 out = 0 /\ emissions on_channel2 out = 1) /\
  (forall t, t ∈ pending s -> waitingNode s = None ->
     step e s (Timer t) = Some (fired t s, [])) /\
  (forall evs0 out0 t, run e init evs0 = Some (s, out0) -> t ∈ pending s ->
     timeoutId s = Some t /\ waitingNode s <> None).
Proof.
  split; [|split; [|split]];
    [| | |intros evs0 out0 t Hrun;
          apply (inv_pending s (consistent_run e evs0 init s out0 consistent_init Hrun))].
  - intros msg venv thrown H. apply on_input_timer, no_timeout_configured, H.
  - intros t w Ht Hw. cbn zeta. unfold step. rewrite decide_True by exact Ht.
    unfold timeoutHandler.
    change (waitingNode (fired t s)) with (waitingNode s). rewrite Hw.
    destruct (cleanup_quiet (fired t s)) as [Hq _].
    destruct (quiet_no_emission _ Hq) as [Ha Hb].
    repeat split; try reflexivity.
    + change (emissions on_channel1 (snd (cleanup (fired t s))) = 0). exact Ha.
    + change (S (emissions on_channel2 (snd (cleanup (fired t s)))) = 1).
      rewrite Hb. reflexivity.
  - intros t Ht Hw. unfold step. rewrite decide_True by exact Ht.
    unfold timeoutHandler.
    change (waitingNode (fired t s)) with (waitingNode s). rewrite Hw.
    reflexivity.
Qed.

(** Scenario B (a two-second timeout, the worker only says it is ready, the
    timer fires), an input on a node configured with timeout 0, a timer
    firing on a state whose slot is empty, and the pending timer of a node
    that is detecting. *)
Lemma C5_witness :
  snd <$> run env2 init [Input msg1 false None; Stdout 0 line_ready; Timer 0]
    = Some [Status StatusClear; Status StatusDetecting; SetTimeout 0 (JNum 2000);
            Spawn 0 "python3" default_args; Status StatusReady;
            Send None (Some [("payload", JStr "No humans detected (timeout)")]);
            Kill 0; ClearTimeout 0; Status StatusClear] /\
  timeoutId detecting0 = None /\
  step env2 (fst (set_waitingNode msg1 (fst (setTimeout (JNum 2000) init)))) (Timer 0)
    = Some (fst (cleanup (fst (setTimeout (JNum 2000) init))),
            [Send None (Some [("payload", JStr "No humans detected (timeout)")]);
             ClearTimeout 0; Status StatusClear]) /\
  step env2 (fst (setTimeout (JNum 2000) init)) (Timer 0)
    = Some (fired 0 (fst (setTimeout (JNum 2000) init)), []) /\
  (timeoutId detecting2 = Some 0 /\ waitingNode detecting2 <> None).
Proof.
  split; [vm_compute; reflexivity|split; [|split; [|split]]].
  - destruct (C5_timeout_race env0 init) as (H & _ & _ & _).
    apply (H msg1 false None). right. reflexivity.
  - destruct (C5_timeout_race env2
                (fst (set_waitingNode msg1 (fst (setTimeout (JNum 2000) init)))))
      as (_ & H & _ & _).
    destruct (H 0 msg1 ltac:(vm_compute; set_solver) eq_refl) as (-> & _).
    vm_compute. reflexivity.
  - destruct (C5_timeout_race env2 (fst (setTimeout (JNum 2000) init))) as (_ & _ & H & _).
    apply H; [vm_compute; set_solver|reflexivity].
  - destruct (C5_timeout_race env2 detecting2) as (_ & _ & _ & H).
    apply (H [Input msg1 false None] (snd (on_input env2 msg1 false None init) ++ []) 0);
      [reflexivity|vm_compute; set_solver].
Defined.

(* ===================================================================== *)
(** * C6: error messages *)
(* ===================================================================== *)

(** C6, as stated, fails for the empty reason: the handler tests
    [result.error] for truthiness, and the empty string is falsy. A worker
    that prints an error message with an empty reason is ignored; the
    Request stays unresolved, its worker and its timer stay. *)
Lemma C6_counterexample :
  JSON_parse (js "{'error':''}") = Some (JObj [("error", JStr "")]) /\
  on_line (js "{'error':''}") detecting2 = (detecting2, []) /\
  (snd <$> run env2 init [Input msg1 false None; Stdout 0 line_empty_error])
    = Some [Status StatusClear; Status StatusDetecting; SetTimeout 0 (JNum 2000);
            Spawn 0 "python3" default_args] /\
  (fst <$> run env2 init [Input msg1 false None; Stdout 0 line_empty_error])
    = Some detecting2 /\
  waitingNode detecting2 = Some msg1 /\
  pythonProcess detecting2 = Some 0 /\
  timeoutId detecting2 = Some 0.
Proof. vm_compute. repeat split; reflexivity. Qed.

(** C6 (amended). Every decoded message whose [error] is a non-empty string
    is terminal: the reason is reported, the error status is set, teardown
    runs (worker handle, timer handle and slot are cleared) and neither
    output emits; the outcome is a failure with that reason. *)
Theorem C6_error_is_terminal (s : state) (o : object) (reason : string) :
  lookup_field "error" o = Some (JStr reason) ->
  reason <> "" ->
  let out := Error (ReportWorker (JStr reason)) :: Status StatusError
             :: snd (cleanup s) in
  on_result (JObj o) s = Some (fst (cleanup s), out) /\
  outcome_of out = Some (Failure (ReportWorker (JStr reason))) /\
  emissions on_channel1 out = 0 /\ emissions on_channel2 out = 0 /\
  pythonProcess (fst (cleanup s)) = None /\
  waitingNode (fst (cleanup s)) = None /\
  timeoutId (fst (cleanup s)) = None.
Proof.
  intros Ho Hr out. unfold on_result, prop. cbn [nullish]. rewrite Ho.
  cbn [default from_option id truthy].
  destruct (String.eqb_spec reason "") as [->|_]; [contradiction|]. cbn [negb].
  destruct (cleanup_quiet s) as [Hq _].
  destruct (quiet_no_emission _ Hq) as [Ha Hb].
  repeat split; try assumption; reflexivity.
Qed.

(** Scenario D: the worker reports that the camera was not found. *)
Lemma C6_witness :
  on_result (JObj [("error", JStr "camera not found")]) detecting2
    = Some (fst (cleanup detecting2),
            [Error (ReportWorker (JStr "camera not found")); Status StatusError;
             Kill 0; ClearTimeout 0; Status StatusClear]) /\
  snd <$> run env2 init [Input msg1 false None; Stdout 0 line_camera]
    = Some [Status StatusClear; Status StatusDetecting; SetTimeout 0 (JNum 2000);
            Spawn 0 "python3" default_args;
            Error (ReportWorker (JStr "camera not found")); Status StatusError;
            Kill 0; ClearTimeout 0; Status StatusClear].
Proof.
  split.
  - apply (C6_error_is_terminal detecting2 [("error", JStr "camera not found")]
             "camera not found"); [reflexivity|discriminate].
  - vm_compute. reflexivity.
Defined.

(* ===================================================================== *)
(** * C7: the exit of the worker *)
(* ===================================================================== *)

(** C7. When a worker whose listeners are live closes with an exit code
    other than 0 and other than null, the error is reported, the error
    status is set, teardown runs and nothing is emitted on either output:
    the outcome is a failure. When it closes with exit code 0 the handler
    does what [cleanup] does and no more; on a node whose Request was
    already resolved that is only the reset of the status. *)
Theorem C7_exit_handling (e : env) (s : state) (p : pid) (buffer : string) :
  dataBuffer s !! p = Some buffer ->
  (forall c : Z, c <> 0%Z ->
     let s0 := forget_worker p s in
     let out := Error (ReportExit c) :: Status StatusError :: snd (cleanup s0) in
     step e s (Close p (Some c)) = Some (fst (cleanup s0), out) /\
     outcome_of out = Some (Failure (ReportExit c)) /\
     emissions on_channel1 out = 0 /\ emissions on_channel2 out = 0 /\
     waitingNode (fst (cleanup s0)) = None) /\
  step e s (Close p (Some 0%Z)) = Some (cleanup (forget_worker p s)) /\
  (pythonProcess s = None -> timeoutId s = None -> waitingNode s = None ->
   step e s (Close p (Some 0%Z)) = Some (forget_worker p s, [Status StatusClear])).
Proof.
  intros Hp. unfold step. rewrite Hp. cbn [mbind option_bind].
  split; [|split].
  - intros c Hc. unfold on_close.
    destruct (Z.eqb_spec c 0) as [->|_]; [contradiction|]. cbn [negb].
    destruct (cleanup_quiet (forget_worker p s)) as [Hq Hn].
    destruct (quiet_no_emission _ Hq) as [Ha Hb].
    repeat split; try assumption; try reflexivity.
  - reflexivity.
  - intros H1 H2 H3. change (on_close (Some 0%Z)) with cleanup. f_equal.
    apply cleanup_idle; assumption.
Qed.

(** Scenario C: the worker exits with code 1 before any terminal message;
    and an exit with code 0 that arrives after the Request was resolved. *)
Lemma C7_witness :
  snd <$> step env0 detecting0 (Close 0 (Some 1%Z))
    = Some [Error (ReportExit 1); Status StatusError; Kill 0; Status StatusClear] /\
  step env0 (fst (cleanup detecting0)) (Close 0 (Some 0%Z))
    = Some (forget_worker 0 (fst (cleanup detecting0)), [Status StatusClear]).
Proof.
  split.
  - destruct (C7_exit_handling env0 detecting0 0 "" eq_refl) as (H & _ & _).
    destruct (H 1%Z ltac:(discriminate)) as (-> & _). reflexivity.
  - destruct (C7_exit_handling env0 (fst (cleanup detecting0)) 0 "" eq_refl)
      as (_ & _ & H).
    apply H; reflexivity.
Defined.

(* ===================================================================== *)
(** * C8: a detection of nobody resolves nothing *)
(* ===================================================================== *)

(** C8. A [detected] message (an object without a truthy [error] whose
    [status] is the string [detected]) whose count is a number equal to
    zero has no effect and leaves the state as it is; so does, but for the
    status it shows, a [ready] message. Conversely, whenever a decoded
    message makes output 1 emit, its status is [detected], its count is
    greater than zero and the slot held a Request. *)
Theorem C8_zero_count_suppressed (s : state) :
  (forall o c,
     truthy (prop (JObj o) "error") = false ->
     prop (JObj o) "status" = JStr "detected" ->
     prop (JObj o) "count" = JNum c ->
     (c =? zero)%float = true ->
     on_result (JObj o) s = Some (s, [])) /\
  (forall o,
     truthy (prop (JObj o) "error") = false ->
     prop (JObj o) "status" = JStr "ready" ->
     on_result (JObj o) s = Some (s, [Status StatusReady])) /\
  (forall result s' out,
     on_result result s = Some (s', out) ->
     emissions on_channel1 out <> 0 ->
     prop result "status" = JStr "detected" /\
     (zero <? ToNumber (prop result "count"))%float = true /\
     waitingNode s <> None).
Proof.
  split; [|split].
  - intros o c He Hs Hc Hz. unfold on_result. cbn [nullish].
    rewrite He, Hs, Hc, gt_zero_JNum, (eqb_zero_not_gt c Hz). reflexivity.
  - intros o He Hs. unfold on_result. cbn [nullish]. rewrite He, Hs. reflexivity.
  - intros result s' out. unfold on_result.
    destruct (nullish result); [discriminate|].
    destruct (truthy (prop result "error")).
    { intros [= <- <-] H. exfalso. apply H.
      unfold seq, emit, cleanup.
      destruct (pythonProcess s), (timeoutId s); reflexivity. }
    destruct (is_string (prop result "status") "ready").
    { intros [= <- <-] H. exfalso. apply H. reflexivity. }
    destruct (is_string (prop result "status") "detected") eqn:Hd; cbn [andb].
    2:{ intros [= <- <-] H. exfalso. apply H. reflexivity. }
    destruct (gt_zero (prop result "count")) eqn:Hg.
    2:{ intros [= <- <-] H. exfalso. apply H. reflexivity. }
    destruct (waitingNode s) as [w|].
    2:{ intros [= <- <-] H. exfalso. apply H. reflexivity. }
    intros _ _. split; [|split; [exact Hg|discriminate]].
    unfold is_string in Hd. destruct (prop result "status"); try discriminate.
    apply String.eqb_eq in Hd. congruence.
Qed.

(** A worker that reports nobody in view, one that is ready, and the
    detection of scenario A. *)
Lemma C8_witness :
  on_result (JObj [("status", JStr "detected"); ("count", JNum 0); ("humans", JArr [])])
            detecting2 = Some (detecting2, []) /\
  on_result (JObj [("status", JStr "ready")]) detecting2
    = Some (detecting2, [Status StatusReady]) /\
  (prop result_detected "status" = JStr "detected" /\
   (zero <? ToNumber (prop result_detected "count"))%float = true /\
   waitingNode detecting2 <> None) /\
  snd <$> run env2 init [Input msg1 false None; Stdout 0 line_nobody; Stdout 0 line_detected]
    = Some [Status StatusClear; Status StatusDetecting; SetTimeout 0 (JNum 2000);
            Spawn 0 "python3" default_args;
            Send (Some [("_msgid", JStr "a1"); ("payload", detection)]) None;
            Status (StatusDetected (JNum 1)); Kill 0; ClearTimeout 0; Status StatusClear].
Proof.
  destruct (C8_zero_count_suppressed detecting2) as (H1 & H2 & H3).
  split; [|split; [|split]].
  - apply (H1 _ zero); reflexivity.
  - apply H2; reflexivity.
  - eapply (H3 result_detected); [reflexivity|discriminate].
  - vm_compute. reflexivity.
Defined.

(* ===================================================================== *)
(** * C9: teardown is idempotent *)
(* ===================================================================== *)

(** C9. [cleanup] is a total function of the state (it cannot raise): from
    any state it clears the worker handle, the timer handle and the request
    slot, it emits on no output and reports no error; called again it
    changes nothing and does nothing but reset the status; and the same
    holds when the worker and the timer were already gone. *)
Theorem C9_idempotent_teardown (s : state) :
  pythonProcess (fst (cleanup s)) = None /\
  waitingNode (fst (cleanup s)) = None /\
  timeoutId (fst (cleanup s)) = None /\
  outcome_of (snd (cleanup s)) = None /\
  emissions on_channel1 (snd (cleanup s)) = 0 /\
  emissions on_channel2 (snd (cleanup s)) = 0 /\
  cleanup (fst (cleanup s)) = (fst (cleanup s), [Status StatusClear]) /\
  (pythonProcess s = None -> timeoutId s = None -> waitingNode s = None ->
   cleanup s = (s, [Status StatusClear])).
Proof.
  destruct (cleanup_quiet s) as [Hq _].
  destruct (quiet_no_emission _ Hq) as [Ha Hb].
  repeat split; try assumption; try reflexivity.
  apply cleanup_idle.
Qed.

(** Teardown of a node that never started a worker, and teardown twice of
    one that is detecting. *)
Lemma C9_witness :
  cleanup init = (init, [Status StatusClear]) /\
  snd (cleanup detecting2) = [Kill 0; ClearTimeout 0; Status StatusClear] /\
  cleanup (fst (cleanup detecting2)) = (fst (cleanup detecting2), [Status StatusClear]).
Proof.
  split; [|split].
  - destruct (C9_idempotent_teardown init) as (_ & _ & _ & _ & _ & _ & _ & H).
    apply H; reflexivity.
  - reflexivity.
  - destruct (C9_idempotent_teardown detecting2) as (_ & _ & _ & _ & _ & _ & H & _).
    exact H.
Defined.

(* ===================================================================== *)
(** * C10: defaults of the arguments of the worker *)
(* ===================================================================== *)



(* ===================================================================== *)
(** * Further properties of the Human Detection node                      *)
(* ===================================================================== *)

Import Supervision.

(** ** Objects *)

Section Objects.



End Objects.

(** ** The algebra of the handlers

    Every handler but the input handler is put together from a few pieces:
    an effect that leaves the state alone (a log, a warning, the [ready]
    status), [cleanup], an error report followed by [cleanup], an emission
    followed by [cleanup]. A relation between the state before, the effects
    and the state after that holds of each piece and composes holds of
    every such handler, and of every sequence of events once it holds of
    the input handler. *)

Section Handlers.

Variable R : state -> list effect -> state -> Prop.
Hypothesis R_refl : forall s, R s [] s.
Hypothesis R_app :
  forall s o1 s1 o2 s2, R s o1 s1 -> R s1 o2 s2 -> R s (o1 ++ o2) s2.

Lemma seq_eq (c1 c2 : cmd) (s : state) :
  (c1 ;; c2) s = (fst (c2 (fst (c1 s))), snd (c1 s) ++ snd (c2 (fst (c1 s)))).
Proof.
  unfold seq. destruct (c1 s) as [s1 o1]. cbn. destruct (c2 s1); reflexivity.
Qed.

Lemma respects_skip : respects R skip.
Proof. intros s. apply R_refl. Qed.

Lemma respects_seq (c1 c2 : cmd) :
  respects R c1 -> respects R c2 -> respects R (c1 ;; c2).
Proof.
  intros H1 H2 s. rewrite seq_eq. cbn [fst snd].
  eapply R_app; [apply H1|apply H2].
Qed.

Lemma respects_forEach {A : Type} (f : A -> cmd) (l : list A) :
  (forall x, respects R (f x)) -> respects R (forEach f l).
Proof.
  intros Hf. induction l as [|x l IH]; cbn [forEach].
  - apply respects_skip.
  - apply respects_seq; [apply Hf|exact IH].
Qed.

Lemma some_pair {A B : Type} (x : A * B) (a : A) (b : B) :
  Some x = Some (a, b) -> a = fst x /\ b = snd x.
Proof. intros [= ->]. auto. Qed.

Lemma respects_some (c : cmd) s s' out :
  respects R c -> Some (c s) = Some (s', out) -> R s out s'.
Proof. intros H [= E]. specialize (H s). rewrite E in H. exact H. Qed.

Lemma respects_run (e : env) :
  (forall s ev s' out, step e s ev = Some (s', out) -> R s out s') ->
  forall evs s s' out, run e s evs = Some (s', out) -> R s out s'.
Proof.
  intros Hstep. induction evs as [|ev evs IH]; cbn [run]; intros s s' out.
  - intros [= <- <-]. apply R_refl.
  - destruct (step e s ev) as [[s1 o1]|] eqn:E1; [|discriminate]. cbn.
    destruct (run e s1 evs) as [[s2 o2]|] eqn:E2; [|discriminate]. cbn.
    intros [= <- <-]. eapply R_app; [eapply Hstep|eapply IH]; eassumption.
Qed.

Hypothesis R_log : forall line, respects R (emit (Log line)).
Hypothesis R_warn : forall data, respects R (emit (Warn data)).
Hypothesis R_ready : respects R (emit (Status StatusReady)).
Hypothesis R_cleanup : respects R cleanup.
Hypothesis R_report :
  forall r, respects R (emit (Error r) ;; emit (Status StatusError) ;; cleanup).
Hypothesis R_success :
  forall m c, respects R (emit (Send (Some m) None) ;;
                          emit (Status (StatusDetected c)) ;; cleanup).
Hypothesis R_timeout :
  respects R (emit (Send None (Some timeoutOutput)) ;; cleanup).
Hypothesis R_bookkeeping :
  forall s s0 out s', bookkeeping s s0 -> R s0 out s' -> R s out s'.

Lemma respects_on_line (line : string) : respects R (on_line line).
Proof.
  intros s. unfold on_line.
  destruct (truthy (JStr (trim line))); [|apply R_refl].
  destruct (JSON_parse line) as [result|]; [|apply R_log].
  unfold on_result. destruct (nullish result); [apply R_log|].
  destruct (truthy (prop result "error")); [apply R_report|].
  destruct (is_string (prop result "status") "ready"); [apply R_ready|].
  destruct (is_string (prop result "status") "detected" && gt_zero (prop result "count"));
    [|apply R_refl].
  destruct (waitingNode s); [apply R_success|apply R_refl].
Qed.

Lemma respects_timeoutHandler : respects R timeoutHandler.
Proof.
  intros s. unfold timeoutHandler.
  destruct (waitingNode s); [apply R_timeout|apply R_refl].
Qed.

Lemma respects_on_close (code : option Z) : respects R (on_close code).
Proof.
  unfold on_close. destruct code as [c|]; [|exact R_cleanup].
  destruct (negb (c =? 0)%Z); [apply R_report|exact R_cleanup].
Qed.

(** Every event but an input and the closing of the node. *)
Lemma respects_step e s ev s' out :
  is_input ev = false -> is_node_close ev = false ->
  step e s ev = Some (s', out) -> R s out s'.
Proof.
  destruct ev as [msg venv thrown|p data|p data|p code|p msg|t| |];
    intros Hi Hc; try discriminate; unfold step.
  - unfold on_stdout. destruct (dataBuffer s !! p) as [buffer|]; [|discriminate].
    cbn [mbind option_bind]. destruct (feed buffer data) as [lines rest].
    rewrite seq_eq. intros [= <- <-]. cbn [snd fst set_dataBuffer app].
    eapply R_bookkeeping; [apply (bk_buffer s p rest)|].
    apply respects_forEach, respects_on_line.
  - destruct (dataBuffer s !! p); [|discriminate]. cbn [mbind option_bind].
    apply respects_some, R_warn.
  - destruct (dataBuffer s !! p); [|discriminate]. cbn [mbind option_bind].
    intros E. apply (R_bookkeeping s (forget_worker p s)); [constructor|].
    revert E. apply respects_some, respects_on_close.
  - destruct (dataBuffer s !! p); [|discriminate]. cbn [mbind option_bind].
    apply respects_some, R_report.
  - destruct (decide (t ∈ pending s)); [|discriminate]. intros E.
    apply (R_bookkeeping s (fired t s)); [constructor|].
    revert E. apply respects_some, respects_timeoutHandler.
  - destruct (events e); [|discriminate]. apply respects_some, R_cleanup.
Qed.

Hypothesis R_done : respects R (emit Done).
Hypothesis R_input : forall e msg venv thrown, respects R (on_input e msg venv thrown).

Lemma respects_events e evs s s' out :
  run e s evs = Some (s', out) -> R s out s'.
Proof.
  apply respects_run. clear s s' out evs. intros s ev s' out.
  destruct (is_input ev) eqn:Hi; [|destruct (is_node_close ev) eqn:Hc].
  - destruct ev; try discriminate. cbn [step]. apply respects_some, R_input.
  - destruct ev; try discriminate. cbn [step]. apply respects_some.
    apply respects_seq; [exact R_cleanup|exact R_done].
  - apply respects_step; assumption.
Qed.

End Handlers.

(** ** No worker and no timer is lost *)

Section Accounting.

Lemma accounted_refl s : accounted s [] s.
Proof.
  split; intros x [H|H]; auto.
  - destruct H as (? & ? & []).
  - destruct H as (? & []).
Qed.

Lemma accounted_app s o1 s1 o2 s2 :
  accounted s o1 s1 -> accounted s1 o2 s2 -> accounted s (o1 ++ o2) s2.
Proof.
  intros [P1 T1] [P2 T2]. split.
  - intros p H.
    assert (H1 : pythonProcess s1 = Some p \/ In (Kill p) o1 \/
                 exists c a, In (Spawn p c a) o2).
    { destruct H as [H|(c & a & H)].
      - destruct (P1 p (or_introl H)); auto.
      - apply in_app_or in H as [H|H]; [|right; right; eauto].
        destruct (P1 p) as [?|?]; eauto. }
    destruct H1 as [H1|[H1|H1]].
    + destruct (P2 p (or_introl H1)); [auto|right; apply in_or_app; auto].
    + right; apply in_or_app; auto.
    + destruct (P2 p (or_intror H1)); [auto|right; apply in_or_app; auto].
  - intros t H.
    assert (H1 : timeoutId s1 = Some t \/ In (ClearTimeout t) o1 \/
                 exists ms, In (SetTimeout t ms) o2).
    { destruct H as [H|(ms & H)].
      - destruct (T1 t (or_introl H)); auto.
      - apply in_app_or in H as [H|H]; [|right; right; eauto].
        destruct (T1 t) as [?|?]; eauto. }
    destruct H1 as [H1|[H1|H1]].
    + destruct (T2 t (or_introl H1)); [auto|right; apply in_or_app; auto].
    + right; apply in_or_app; auto.
    + destruct (T2 t (or_intror H1)); [auto|right; apply in_or_app; auto].
Qed.

(** A piece that creates nothing, and drops the worker only with [kill()]
    and the timer only with [clearTimeout]. *)
Lemma accounted_piece s out s' :
  (forall x, In x out -> is_spawn x = false /\ forall t ms, x <> SetTimeout t ms) ->
  (forall p, pythonProcess s = Some p ->
             pythonProcess s' = Some p \/ In (Kill p) out) ->
  (forall t, timeoutId s = Some t ->
             timeoutId s' = Some t \/ In (ClearTimeout t) out) ->
  accounted s out s'.
Proof.
  intros Hn Hp Ht. split.
  - intros p [H|(c & a & H)]; [auto|]. apply Hn in H as [H _]. discriminate.
  - intros t [H|(ms & H)]; [auto|]. apply Hn in H as [_ H]. destruct (H t ms eq_refl).
Qed.

Lemma accounted_emit (x : effect) :
  is_spawn x = false -> (forall t ms, x <> SetTimeout t ms) ->
  respects accounted (emit x).
Proof.
  intros H1 H2 s. apply accounted_piece; cbn; auto.
  intros y [<-|[]]. auto.
Qed.

Lemma accounted_cleanup : respects accounted cleanup.
Proof.
  intros s. apply accounted_piece; unfold cleanup; cbn [fst snd].
  - intros x Hx. destruct (pythonProcess s), (timeoutId s); cbn in Hx;
      repeat (destruct Hx as [<-|Hx]; [split; [reflexivity|discriminate]|]);
      destruct Hx.
  - intros p ->. right. left. reflexivity.
  - intros t ->. right. apply in_or_app. right. left. reflexivity.
Qed.

Lemma accounted_bookkeeping s s0 out s' :
  bookkeeping s s0 -> accounted s0 out s' -> accounted s out s'.
Proof. intros []; auto. Qed.

Lemma accounted_start e msg venv thrown s :
  pythonProcess s = None -> timeoutId s = None ->
  accounted s (snd (start e msg venv thrown s)) (fst (start e msg venv thrown s)).
Proof.
  intros Hp Ht.
  unfold start, seq, set_waitingNode, emit, setTimeout, spawn, skip, cleanup.
  destruct (truthy (timeout (cfg e)) && gt_zero (timeout (cfg e)));
    destruct thrown as [m|]; cbn; rewrite ?Hp, ?Ht; cbn;
    (split; [intros p [H|(c & a & H)]|intros t [H|(ms & H)]]);
    try congruence; cbn in H;
    repeat (destruct H as [H|H]; [try discriminate H|]); try contradiction;
    injection H as <-; first [left; reflexivity | right; cbn; auto 10].
Qed.

Lemma accounted_on_input e msg venv thrown :
  respects accounted (on_input e msg venv thrown).
Proof.
  intros s. change (on_input e msg venv thrown) with (cleanup ;; start e msg venv thrown).
  rewrite seq_eq. cbn [fst snd].
  eapply accounted_app; [apply accounted_cleanup|].
  apply accounted_start; reflexivity.
Qed.

(** X1. From any state and over any sequence of events, no worker and no
    timer is lost: a worker that was current at the start or was spawned
    on the way is the current one at the end or was sent [kill()], and a
    timer that was current or was armed on the way is the current one at
    the end or was passed to [clearTimeout]. *)
Theorem workers_and_timers_accounted e evs s s' out :
  run e s evs = Some (s', out) ->
  (forall p, pythonProcess s = Some p \/ (exists c a, In (Spawn p c a) out) ->
             pythonProcess s' = Some p \/ In (Kill p) out) /\
  (forall t, timeoutId s = Some t \/ (exists ms, In (SetTimeout t ms) out) ->
             timeoutId s' = Some t \/ In (ClearTimeout t) out).
Proof.
  apply (respects_events accounted accounted_refl accounted_app);
    try (intros; apply accounted_emit; [reflexivity|discriminate]).
  - exact accounted_cleanup.
  - intros r. repeat apply respects_seq; try exact accounted_app;
      try exact accounted_cleanup; apply accounted_emit; (reflexivity || discriminate).
  - intros m c. repeat apply respects_seq; try exact accounted_app;
      try exact accounted_cleanup; apply accounted_emit; (reflexivity || discriminate).
  - repeat apply respects_seq; try exact accounted_app;
      try exact accounted_cleanup; apply accounted_emit; (reflexivity || discriminate).
  - exact accounted_bookkeeping.
  - exact accounted_on_input.
Qed.

(** Two inputs in a row, then the close event of the first worker: worker
    0 was killed by the second input, worker 1 by the close handler. *)
Lemma workers_and_timers_accounted_witness :
  In (Kill 0)
     [Status StatusClear; Status StatusDetecting; SetTimeout 0 (JNum 2000);
      Spawn 0 "python3" default_args;
      Kill 0; ClearTimeout 0; Status StatusClear;
      Status StatusDetecting; SetTimeout 1 (JNum 2000);
      Spawn 1 "python3" default_args;
      Kill 1; ClearTimeout 1; Status StatusClear] /\
  In (Kill 1)
     [Status StatusClear; Status StatusDetecting; SetTimeout 0 (JNum 2000);
      Spawn 0 "python3" default_args;
      Kill 0; ClearTimeout 0; Status StatusClear;
      Status StatusDetecting; SetTimeout 1 (JNum 2000);
      Spawn 1 "python3" default_args;
      Kill 1; ClearTimeout 1; Status StatusClear].
Proof.
  assert (H : run env2 init [Input msg1 false None; Input msg2 false None; Close 0 None]
              = Some ({| pythonProcess := None; waitingNode := None; timeoutId := None;
                         dataBuffer := <[1 := ""]> ∅; pending := ∅;
                         spawned := 2; armed := 2 |},
                      [Status StatusClear; Status StatusDetecting; SetTimeout 0 (JNum 2000);
                       Spawn 0 "python3" default_args;
                       Kill 0; ClearTimeout 0; Status StatusClear;
                       Status StatusDetecting; SetTimeout 1 (JNum 2000);
                       Spawn 1 "python3" default_args;
                       Kill 1; ClearTimeout 1; Status StatusClear]))
    by (vm_compute; reflexivity).
  destruct (workers_and_timers_accounted _ _ _ _ _ H) as [Hp _].
  split.
  - destruct (Hp 0) as [E|K]; [right; eexists _, _; cbn; eauto|discriminate E|exact K].
  - destruct (Hp 1) as [E|K]; [right; eexists _, _; cbn; eauto 12|discriminate E|exact K].
Defined.

End Accounting.

(** ** The status on display *)

Section Display.

Lemma displayed_app (a b : list effect) : forall current,
  displayed current (a ++ b) = displayed (displayed current a) b.
Proof.
  induction a as [|x a IH]; intros current; [reflexivity|].
  destruct x; cbn; apply IH.
Qed.

Lemma settles_nil : settles [].
Proof. intros current H. exact H. Qed.

Lemma settles_app (a b : list effect) : settles a -> settles b -> settles (a ++ b).
Proof. intros Ha Hb current H. rewrite displayed_app. apply Hb, Ha, H. Qed.

(** Whatever was on display, [cleanup] leaves the empty status. *)
Lemma displayed_cleanup (s : state) (pre : list effect) (current : option status) :
  displayed current (pre ++ snd (cleanup s)) = Some StatusClear.
Proof.
  rewrite displayed_app. unfold cleanup. cbn [snd].
  destruct (pythonProcess s), (timeoutId s); reflexivity.
Qed.

Lemma settles_cleanup (s : state) (pre : list effect) :
  settles (pre ++ snd (cleanup s)).
Proof. intros current _. rewrite displayed_cleanup. reflexivity. Qed.

Lemma settles_on_input e msg venv thrown s :
  settles (snd (on_input e msg venv thrown s)).
Proof.
  change (on_input e msg venv thrown) with (cleanup ;; start e msg venv thrown).
  rewrite seq_eq. cbn [snd]. apply settles_app; [apply (settles_cleanup s [])|].
  intros current _.
  unfold start, seq, set_waitingNode, emit, setTimeout, spawn, skip, cleanup.
  destruct (truthy (timeout (cfg e)) && gt_zero (timeout (cfg e)));
    destruct thrown as [m|]; cbn; reflexivity.
Qed.

(** X2. The error status and the [detected] status never stay on display:
    over any sequence of events, from any state, if the status displayed
    before was none of the two, the status displayed at the end is
    neither; each is replaced by the empty status in the turn that set
    it. *)
Theorem error_status_never_stays e evs s s' out current :
  run e s evs = Some (s', out) ->
  steady current = true ->
  steady (displayed current out) = true.
Proof.
  intros Hrun. revert current.
  change (settles out). revert Hrun.
  apply (respects_events (fun _ out _ => settles out)).
  - intros _. apply settles_nil.
  - intros _ o1 _ o2 _. apply settles_app.
  - intros line s0 current H. exact H.
  - intros data s0 current H. exact H.
  - intros s0 current H. reflexivity.
  - intros s0. apply (settles_cleanup s0 []).
  - intros r s0. rewrite !seq_eq. cbn [fst snd emit].
    apply (settles_cleanup s0 [Error r; Status StatusError]).
  - intros m c s0. rewrite !seq_eq. cbn [fst snd emit].
    apply (settles_cleanup s0 [Send (Some m) None; Status (StatusDetected c)]).
  - intros s0. rewrite !seq_eq. cbn [fst snd emit].
    apply (settles_cleanup s0 [Send None (Some timeoutOutput)]).
  - intros s0 s1 o s2 _ H. exact H.
  - intros s0 current H. exact H.
  - intros e0 msg venv thrown s0. apply settles_on_input.
Qed.

(** Scenario D: once the error line of the worker is handled, the status
    on display is the empty one. *)
Lemma error_status_never_stays_witness :
  steady (displayed None
    [Status StatusClear; Status StatusDetecting; SetTimeout 0 (JNum 2000);
     Spawn 0 "python3" default_args;
     Error (ReportWorker (JStr "camera not found")); Status StatusError;
     Kill 0; ClearTimeout 0; Status StatusClear]) = true.
Proof.
  apply (error_status_never_stays env2 [Input msg1 false None; Stdout 0 line_camera]
           init (fst (cleanup detecting2))).
  - vm_compute. reflexivity.
  - reflexivity.
Defined.

End Display.

(** ** Failures *)

Section Failures.

Lemma idle_cleanup (s : state) : idle (fst (cleanup s)).
Proof. repeat split. Qed.

Lemma failsafe_refl s : failsafe s [] s.
Proof. split; [auto|]. intros (r & []). Qed.

Lemma failsafe_app s o1 s1 o2 s2 :
  failsafe s o1 s1 -> failsafe s1 o2 s2 -> failsafe s (o1 ++ o2) s2.
Proof.
  intros [I1 E1] [I2 E2]. split; [auto|].
  intros (r & H). apply in_app_or in H as [H|H]; eauto.
Qed.

Lemma failsafe_still (x : effect) :
  (forall r, x <> Error r) -> respects failsafe (emit x).
Proof.
  intros Hx s. split; [auto|]. intros (r & [H|[]]). destruct (Hx r H).
Qed.

(** A piece that ends with [cleanup]. *)
Lemma failsafe_teardown (c : cmd) : respects failsafe (c ;; cleanup).
Proof. intros s. rewrite seq_eq. split; intros _; apply idle_cleanup. Qed.

Lemma failsafe_cleanup : respects failsafe cleanup.
Proof. intros s. split; intros _; apply idle_cleanup. Qed.

Lemma failsafe_bookkeeping s s0 out s' :
  bookkeeping s s0 -> failsafe s0 out s' -> failsafe s out s'.
Proof. intros []; auto. Qed.

Lemma seq_assoc (c1 c2 c3 : cmd) (s : state) :
  (c1 ;; c2 ;; c3) s = ((c1 ;; c2) ;; c3) s.
Proof. rewrite !seq_eq. cbn [fst snd]. now rewrite app_assoc. Qed.

(** X3. Whatever the event, a handler that reports an error leaves the
    node idle: the worker handle, the request slot and the timer handle
    are empty when it returns. This covers the error line of a worker, its
    exit with a non-zero code, its [error] event and an exception thrown
    by [spawn]. *)
Theorem error_report_leaves_idle e s ev s' out r :
  step e s ev = Some (s', out) ->
  In (Error r) out ->
  pythonProcess s' = None /\ waitingNode s' = None /\ timeoutId s' = None.
Proof.
  intros Hstep Hin.
  destruct (is_input ev) eqn:Hi; [|destruct (is_node_close ev) eqn:Hc].
  - destruct ev as [msg venv thrown| | | | | | |]; try discriminate.
    cbn [step] in Hstep. apply some_pair in Hstep as [-> ->]. revert Hin.
    unfold on_input, seq, set_waitingNode, emit, setTimeout, spawn, skip, cleanup.
    destruct (truthy (timeout (cfg e)) && gt_zero (timeout (cfg e)));
      destruct thrown as [m|]; destruct (pythonProcess s), (timeoutId s); cbn;
      intros H; try (repeat split; fail);
      repeat (destruct H as [H|H]; [discriminate H|]); destruct H.
  - destruct ev; try discriminate. cbn [step] in Hstep.
    apply some_pair in Hstep as [-> ->]. repeat split.
  - assert (F : failsafe s out s').
    { revert Hstep. apply (respects_step failsafe failsafe_refl failsafe_app); auto;
        try (intros; apply failsafe_still; discriminate).
      - exact failsafe_cleanup.
      - intros r0 s0. rewrite seq_assoc. apply failsafe_teardown.
      - intros m c s0. rewrite seq_assoc. apply failsafe_teardown.
      - apply failsafe_teardown.
      - exact failsafe_bookkeeping. }
    apply F. eauto.
Qed.

(** A worker that cannot be started: the [error] event of the process. *)
Lemma error_report_leaves_idle_witness :
  pythonProcess (fst (on_error "spawn python3 ENOENT" detecting2)) = None /\
  waitingNode (fst (on_error "spawn python3 ENOENT" detecting2)) = None /\
  timeoutId (fst (on_error "spawn python3 ENOENT" detecting2)) = None.
Proof.
  apply (error_report_leaves_idle env2 detecting2 (ProcError 0 "spawn python3 ENOENT")
           _ (snd (on_error "spawn python3 ENOENT" detecting2))
           (ReportStart "spawn python3 ENOENT")).
  - vm_compute. reflexivity.
  - vm_compute. left. reflexivity.
Defined.

(** X4. When [spawn] throws, the input handler reports the exception and
    tears down what it had set up: the three variables are empty, no worker
    was spawned and no listener attached, and the timer it had just armed,
    if any, was cleared and is not pending. Nothing is emitted; the outcome
    of the Request is the failure. *)
Theorem spawn_exception_is_undone e msg venv m s :
  variables (fst (on_input e msg venv (Some m) s)) = (None, None, None) /\
  outcome_of (snd (on_input e msg venv (Some m) s)) = Some (Failure (ReportSpawn m)) /\
  workers (snd (on_input e msg venv (Some m) s)) = [] /\
  dataBuffer (fst (on_input e msg venv (Some m) s)) = dataBuffer s /\
  spawned (fst (on_input e msg venv (Some m) s)) = spawned s /\
  (forall t ms, In (SetTimeout t ms) (snd (on_input e msg venv (Some m) s)) ->
     In (ClearTimeout t) (snd (on_input e msg venv (Some m) s)) /\
     t ∉ pending (fst (on_input e msg venv (Some m) s))) /\
  emissions on_channel1 (snd (on_input e msg venv (Some m) s)) = 0 /\
  emissions on_channel2 (snd (on_input e msg venv (Some m) s)) = 0.
Proof.
  unfold on_input, seq, set_waitingNode, emit, setTimeout, spawn, skip, cleanup.
  destruct (truthy (timeout (cfg e)) && gt_zero (timeout (cfg e)));
    destruct (pythonProcess s), (timeoutId s); cbn;
    repeat (split; [reflexivity|]); (split; [|split; reflexivity]);
    intros t0 ms H;
    repeat (destruct H as [H|H]; [try discriminate H|]); try contradiction;
    injection H as <- _;
    (split; [auto 10|]); apply not_elem_of_difference; right;
    apply elem_of_singleton; reflexivity.
Qed.

End Failures.

(** ** What only one handler does *)

Section Counts.

Lemma workers_app (a b : list effect) : workers (a ++ b) = workers a ++ workers b.
Proof.
  induction a as [|x a IH]; [reflexivity|].
  destruct x; cbn; rewrite ?IH; reflexivity.
Qed.

Lemma cleanup_creates_nothing (s : state) :
  List.filter is_done (snd (cleanup s)) = [] /\ workers (snd (cleanup s)) = [] /\
  spawned (fst (cleanup s)) = spawned s.
Proof. unfold cleanup. destruct (pythonProcess s), (timeoutId s); auto. Qed.

(** What one event adds to the calls of [done()] and to the workers. *)
Lemma step_counts e s ev s' out :
  step e s ev = Some (s', out) ->
  List.filter is_done out = (if is_node_close ev then [Done] else []) /\
  workers out = (if starts_worker ev then [spawned s] else []) /\
  spawned s' = (if starts_worker ev then S (spawned s) else spawned s).
Proof.
  intros Hstep.
  destruct (is_input ev) eqn:Hi; [|destruct (is_node_close ev) eqn:Hc].
  - destruct ev as [msg venv thrown| | | | | | |]; try discriminate.
    cbn [step] in Hstep. apply some_pair in Hstep as [-> ->].
    unfold on_input, seq, set_waitingNode, emit, setTimeout, spawn, skip, cleanup.
    destruct (truthy (timeout (cfg e)) && gt_zero (timeout (cfg e)));
      destruct thrown as [m|]; destruct (pythonProcess s), (timeoutId s);
      cbn; auto.
  - destruct ev; try discriminate. cbn [step] in Hstep.
    apply some_pair in Hstep as [-> ->].
    unfold on_node_close, seq, emit, cleanup.
    destruct (pythonProcess s), (timeoutId s); cbn; auto.
  - replace (starts_worker ev) with false by (destruct ev; auto; discriminate).
    revert Hstep.
    apply (respects_step
             (fun s out s' => List.filter is_done out = [] /\ workers out = [] /\
                              spawned s' = spawned s)); auto.
    + intros s0 o1 s1 o2 s2 (D1 & W1 & S1) (D2 & W2 & S2).
      rewrite List.filter_app, workers_app, D1, D2, W1, W2.
      split; [reflexivity|split; [reflexivity|congruence]].
    + intros line s0. cbn. auto.
    + intros data s0. cbn. auto.
    + intros s0. cbn. auto.
    + intros s0. apply cleanup_creates_nothing.
    + intros r s0. rewrite !seq_eq. cbn [fst snd emit app List.filter is_done workers].
      apply cleanup_creates_nothing.
    + intros m c s0. rewrite !seq_eq. cbn [fst snd emit app List.filter is_done workers].
      apply cleanup_creates_nothing.
    + intros s0. rewrite !seq_eq. cbn [fst snd emit app List.filter is_done workers].
      apply cleanup_creates_nothing.
    + intros s0 s1 o s2 []; auto.
Qed.

(** X5. [done()] is called once for each closing of the node, whether a
    worker was running or not, and by no other handler: over any sequence
    of events the calls number what the closings number. *)
Theorem done_once_per_close e evs : forall s s' out,
  run e s evs = Some (s', out) ->
  length (List.filter is_done out) = length (List.filter is_node_close evs).
Proof.
  induction evs as [|ev evs IH]; cbn [run]; intros s s' out.
  - intros [= <- <-]. reflexivity.
  - destruct (step e s ev) as [[s1 o1]|] eqn:E1; [|discriminate]. cbn.
    destruct (run e s1 evs) as [[s2 o2]|] eqn:E2; [|discriminate]. cbn.
    intros [= <- <-]. rewrite List.filter_app, length_app, (IH _ _ _ E2).
    destruct (step_counts _ _ _ _ _ E1) as (-> & _).
    destruct (is_node_close ev); reflexivity.
Qed.

(** The node is closed while it is detecting, and again once idle. *)
Lemma done_once_per_close_witness :
  length (List.filter is_done
            [Status StatusClear; Status StatusDetecting; SetTimeout 0 (JNum 2000);
             Spawn 0 "python3" default_args;
             Kill 0; ClearTimeout 0; Status StatusClear; Done;
             Status StatusClear; Done]) = 2.
Proof.
  apply (done_once_per_close env2 [Input msg1 false None; NodeClose; NodeClose] init
           (fst (cleanup detecting2))).
  vm_compute. reflexivity.
Defined.

(** X6. A worker is spawned by an input whose [spawn] does not throw, one
    for each, and by nothing else: over any sequence of events the workers
    spawned are as many as those inputs, each is a new process (numbered
    in the order of creation), and no other event starts one. *)
Theorem one_worker_per_input e evs : forall s s' out,
  run e s evs = Some (s', out) ->
  workers out = List.seq (spawned s) (length (List.filter starts_worker evs)) /\
  spawned s' = spawned s + length (List.filter starts_worker evs).
Proof.
  induction evs as [|ev evs IH]; cbn [run]; intros s s' out.
  - intros [= <- <-]. cbn. split; [reflexivity|lia].
  - destruct (step e s ev) as [[s1 o1]|] eqn:E1; [|discriminate]. cbn.
    destruct (run e s1 evs) as [[s2 o2]|] eqn:E2; [|discriminate]. cbn.
    intros [= <- <-]. rewrite workers_app.
    destruct (IH _ _ _ E2) as [-> ->].
    destruct (step_counts _ _ _ _ _ E1) as (_ & -> & ->).
    destruct (starts_worker ev); cbn; split; auto; lia.
Qed.

(** Two inputs, the second superseding the first, and an input whose
    [spawn] throws. *)
Lemma one_worker_per_input_witness :
  workers [Status StatusClear; Status StatusDetecting; SetTimeout 0 (JNum 2000);
           Spawn 0 "python3" default_args;
           Kill 0; ClearTimeout 0; Status StatusClear;
           Status StatusDetecting; SetTimeout 1 (JNum 2000);
           Spawn 1 "python3" default_args;
           Kill 1; ClearTimeout 1; Status StatusClear;
           Status StatusDetecting; SetTimeout 2 (JNum 2000);
           Error (ReportSpawn "EAGAIN"); Status StatusError;
           ClearTimeout 2; Status StatusClear]
    = [0; 1] /\
  2 = 0 + 2.
Proof.
  apply (one_worker_per_input env2
           [Input msg1 false None; Input msg2 false None; Input msg1 false (Some "EAGAIN")]
           init
           {| pythonProcess := None; waitingNode := None; timeoutId := None;
              dataBuffer := <[1 := ""]> (<[0 := ""]> ∅); pending := ∅;
              spawned := 2; armed := 3 |}).
  vm_compute. reflexivity.
Defined.

End Counts.

(** ** After teardown *)

Section Quiet.

Lemma step_tears_down e s ev s' out :
  tears_down ev = true -> step e s ev = Some (s', out) ->
  waitingNode s' = None /\
  emissions on_channel1 out = 0 /\ emissions on_channel2 out = 0.
Proof.
  destruct ev as [msg venv thrown|p data|p data|p code|p msg|t| |];
    intros Ht; try discriminate; unfold step.
  - destruct (dataBuffer s !! p); [|discriminate]. cbn [mbind option_bind].
    intros [-> ->]%some_pair.
    unfold on_close, seq, emit, cleanup, forget_worker.
    destruct code as [c|]; [destruct (negb (c =? 0)%Z)|];
      cbn; destruct (pythonProcess s), (timeoutId s); auto.
  - destruct (dataBuffer s !! p); [|discriminate]. cbn [mbind option_bind].
    intros [-> ->]%some_pair.
    unfold on_error, seq, emit, cleanup.
    cbn; destruct (pythonProcess s), (timeoutId s); auto.
  - intros [-> ->]%some_pair. unfold on_node_close, seq, emit, cleanup.
    cbn; destruct (pythonProcess s), (timeoutId s); auto.
  - destruct (events e); [|discriminate].
    intros [-> ->]%some_pair. unfold cleanup.
    cbn; destruct (pythonProcess s), (timeoutId s); auto.
Qed.

(** X7. Once the node was closed, the state was reset, or a worker, be it
    a superseded one, closed or failed to start, nothing is emitted on
    either output until the next input: neither by the handler of that
    event nor by any event that follows it, whatever a killed worker
    still writes. *)
Theorem nothing_emitted_after_teardown e s ev evs s' out :
  tears_down ev = true ->
  no_input evs = true ->
  run e s (ev :: evs) = Some (s', out) ->
  emissions on_channel1 out = 0 /\ emissions on_channel2 out = 0 /\
  waitingNode s' = None.
Proof.
  intros Ht Hn. cbn [run].
  destruct (step e s ev) as [[s1 o1]|] eqn:E1; [|discriminate]. cbn.
  destruct (run e s1 evs) as [[s2 o2]|] eqn:E2; [|discriminate]. cbn.
  intros [= <- <-].
  destruct (step_tears_down _ _ _ _ _ Ht E1) as (Hw & H1 & H2).
  pose proof (guarded_run _ _ _ _ _ Hn E2) as G.
  destruct (guarded_idle_no_emission _ _ _ G Hw) as (Hw' & H3 & H4).
  rewrite !emissions_app. split; [lia|split; [lia|exact Hw']].
Qed.

(** The node is closed while it is detecting; the killed worker still
    writes the detection it had made, and closes. *)
Lemma nothing_emitted_after_teardown_witness :
  exists s' out,
    run env2 detecting2 [NodeClose; Stdout 0 line_detected; Close 0 None] = Some (s', out) /\
    emissions on_channel1 out = 0 /\ emissions on_channel2 out = 0 /\
    waitingNode s' = None.
Proof.
  eexists _, _. split; [vm_compute; reflexivity|].
  apply (nothing_emitted_after_teardown env2 detecting2 NodeClose
           [Stdout 0 line_detected; Close 0 None]).
  - reflexivity.
  - reflexivity.
  - vm_compute. reflexivity.
Defined.

End Quiet.

(** ** The two states of the node *)

Section Lifecycle.

Lemma lifecycle_init : lifecycle init.
Proof.
  split.
  - left. repeat split.
  - intros t. cbn. split; [discriminate|]. intros H. destruct (not_elem_of_empty t H).
Qed.

(** Teardown leaves the node idle with no timer pending, provided the only
    timer that could be pending was the one in [timeoutId]. *)
Lemma lifecycle_cleanup (s : state) :
  (forall t, t ∈ pending s -> timeoutId s = Some t) -> lifecycle (fst (cleanup s)).
Proof.
  intros W. split.
  - left. repeat split.
  - intros t. cbn. split; [discriminate|].
    destruct (timeoutId s) as [t0|].
    + intros [H1 H2]%elem_of_difference. exfalso. apply H2.
      specialize (W t H1). injection W as ->. apply elem_of_singleton. reflexivity.
    + intros H. specialize (W t H). discriminate.
Qed.

Lemma lifecycle_pending (s : state) :
  lifecycle s -> forall t, t ∈ pending s -> timeoutId s = Some t.
Proof. intros L t. apply (lc_timer s L). Qed.

Lemma lifecycle_start e msg venv thrown (s : state) :
  lifecycle s -> idle s -> lifecycle (fst (start e msg venv thrown s)).
Proof.
  intros L (Hp & Hw & Ht).
  assert (Hnone : forall t, t ∈ pending s -> False).
  { intros t H. apply (lc_timer s L) in H. congruence. }
  unfold start. rewrite !seq_eq.
  destruct (truthy (timeout (cfg e)) && gt_zero (timeout (cfg e)));
    destruct thrown as [m|].
  - apply lifecycle_cleanup. cbn. intros t [H|H]%elem_of_union.
    + destruct (Hnone t H).
    + apply elem_of_singleton in H. now subst.
  - split.
    + right. exists (spawned s), msg. cbn. repeat split.
      rewrite lookup_insert_eq. eauto.
    + intros t. cbn. split.
      * intros [= <-]. apply elem_of_union. right. apply elem_of_singleton. reflexivity.
      * intros [H|H]%elem_of_union; [destruct (Hnone t H)|].
        apply elem_of_singleton in H. now subst.
  - apply lifecycle_cleanup. cbn. intros t H. destruct (Hnone t H).
  - split.
    + right. exists (spawned s), msg. cbn. repeat split.
      rewrite lookup_insert_eq. eauto.
    + intros t. cbn. rewrite Ht. split; [discriminate|]. intros H. destruct (Hnone t H).
Qed.

Lemma lifecycle_on_input e msg venv thrown (s : state) :
  lifecycle s -> lifecycle (fst (on_input e msg venv thrown s)).
Proof.
  intros L. change (on_input e msg venv thrown) with (cleanup ;; start e msg venv thrown).
  rewrite seq_eq. cbn [fst].
  apply lifecycle_start.
  - apply lifecycle_cleanup, lifecycle_pending, L.
  - repeat split.
Qed.

Lemma lifecycle_set_dataBuffer p buf (s : state) :
  lifecycle s -> lifecycle (fst (set_dataBuffer p buf s)).
Proof.
  intros [[I|(q & m & Hq & Hm & Hb)] T]; split; auto.
  right. exists q, m. cbn. repeat split; auto.
  apply lookup_insert_is_Some. destruct (decide (p = q)); auto.
Qed.

Lemma lifecycle_step e s ev s' out :
  lifecycle s -> step e s ev = Some (s', out) -> lifecycle s'.
Proof.
  intros L.
  destruct ev as [msg venv thrown|p data|p data|p code|p msg|t| |]; unfold step.
  - intros [-> _]%some_pair. apply lifecycle_on_input, L.
  - unfold on_stdout. destruct (dataBuffer s !! p) as [buffer|]; [|discriminate].
    cbn [mbind option_bind]. destruct (feed buffer data) as [lines rest].
    intros [-> _]%some_pair. rewrite seq_eq. cbn [fst].
    pose proof (lifecycle_set_dataBuffer p rest s L) as L1.
    destruct (forEach_on_line_state lines (fst (set_dataBuffer p rest s))) as [->| ->].
    + exact L1.
    + apply lifecycle_cleanup, lifecycle_pending, L1.
  - destruct (dataBuffer s !! p); [|discriminate]. cbn [mbind option_bind].
    intros [-> _]%some_pair. exact L.
  - destruct (dataBuffer s !! p); [|discriminate]. cbn [mbind option_bind].
    intros [-> _]%some_pair.
    replace (fst (on_close code (forget_worker p s)))
      with (fst (cleanup (forget_worker p s))).
    + apply lifecycle_cleanup. exact (lifecycle_pending s L).
    + unfold on_close. destruct code as [c|]; [|reflexivity].
      destruct (negb (c =? 0)%Z); [|reflexivity]. now rewrite !seq_eq.
  - destruct (dataBuffer s !! p); [|discriminate]. cbn [mbind option_bind].
    intros [-> _]%some_pair. unfold on_error. rewrite !seq_eq. cbn [fst emit].
    apply lifecycle_cleanup, lifecycle_pending, L.
  - destruct (decide (t ∈ pending s)) as [Hin|]; [|discriminate].
    intros [-> _]%some_pair.
    assert (Hw : exists m, waitingNode s = Some m).
    { apply (lc_timer s L) in Hin.
      destruct (lc_state s L) as [(_ & _ & Ht)|(q & m & _ & Hm & _)]; [congruence|eauto]. }
    destruct Hw as (m & Hm). unfold timeoutHandler. cbn [waitingNode fired].
    rewrite Hm, seq_eq. cbn [fst emit].
    apply lifecycle_cleanup. cbn. intros t0 [H _]%elem_of_difference.
    apply (lifecycle_pending s L), H.
  - intros [-> _]%some_pair. unfold on_node_close. rewrite seq_eq. cbn [fst emit].
    apply lifecycle_cleanup, lifecycle_pending, L.
  - destruct (events e); [|discriminate]. intros [-> _]%some_pair.
    apply lifecycle_cleanup, lifecycle_pending, L.
Qed.

Lemma lifecycle_run e evs : forall s s' out,
  lifecycle s -> run e s evs = Some (s', out) -> lifecycle s'.
Proof.
  induction evs as [|ev evs IH]; cbn [run]; intros s s' out L.
  - intros [= <- _]. exact L.
  - destruct (step e s ev) as [[s1 o1]|] eqn:E1; [|discriminate]. cbn.
    destruct (run e s1 evs) as [[s2 o2]|] eqn:E2; [|discriminate]. cbn.
    intros [= <- _]. apply (IH _ _ _ (lifecycle_step _ _ _ _ _ L E1) E2).
Qed.

(** X8. A node started from its initial state is always in one of two
    states. Idle: the worker handle, the request slot and the timer handle
    are all empty. Detecting: the slot holds a Request and the handle its
    worker, whose listeners are attached. In both, the timer handle holds a
    timer exactly when that timer is pending: the node never keeps the
    handle of a timer that fired or was cleared, and never leaves a timer
    running that it has no handle of. *)
Theorem idle_or_detecting e evs s out :
  run e init evs = Some (s, out) ->
  ((pythonProcess s = None /\ waitingNode s = None /\ timeoutId s = None) \/
   (exists p m, pythonProcess s = Some p /\ waitingNode s = Some m /\
                is_Some (dataBuffer s !! p))) /\
  (forall t, timeoutId s = Some t <-> t ∈ pending s).
Proof.
  intros Hrun.
  destruct (lifecycle_run _ _ _ _ _ lifecycle_init Hrun) as [St Ti].
  split; [exact St|exact Ti].
Qed.

(** The node of scenario B before and after its timer fired. *)
Lemma idle_or_detecting_witness :
  (timeoutId detecting2 = Some 0 <-> 0 ∈ pending detecting2) /\
  (timeoutId (fst (cleanup (fired 0 detecting2))) = Some 0
   <-> 0 ∈ pending (fst (cleanup (fired 0 detecting2)))).
Proof.
  assert (H1 : run env2 init [Input msg1 false None]
               = Some (detecting2, snd (on_input env2 msg1 false None init)))
    by (vm_compute; reflexivity).
  assert (H2 : run env2 init [Input msg1 false None; Timer 0]
               = Some (fst (cleanup (fired 0 detecting2)),
                       snd (on_input env2 msg1 false None init)
                       ++ snd (timeoutHandler (fired 0 detecting2))))
    by (vm_compute; reflexivity).
  split.
  - exact (proj2 (idle_or_detecting _ _ _ _ H1) 0).
  - exact (proj2 (idle_or_detecting _ _ _ _ H2) 0).
Defined.

End Lifecycle.

(** ** What the worker writes *)

Section Protocol.



Lemma on_line_noise (line : string) (s : state) :
  parses_to_object line = false ->
  on_line line s = (s, if logged line then [Log line] else []).
Proof.
  unfold parses_to_object, logged, on_line. intros H.
  destruct (truthy (JStr (trim line))); [|reflexivity].
  destruct (JSON_parse line) as [v|]; [|reflexivity].
  destruct v; try discriminate; reflexivity.
Qed.

Lemma forEach_noise (lines : list string) (s : state) :
  Forall (fun l => parses_to_object l = false) lines ->
  forEach on_line lines s = (s, map Log (List.filter logged lines)).
Proof.
  induction 1 as [|line lines H _ IH]; [reflexivity|].
  cbn [forEach]. rewrite seq_eq, (on_line_noise _ _ H). cbn [fst snd].
  rewrite IH. cbn [fst snd List.filter].
  destruct (logged line); reflexivity.
Qed.

(** X10. What the worker writes besides its messages is noise: when none of
    the lines completed by a chunk is a JSON object, the handler only
    replaces the buffer of that worker; the three variables stay as they
    are and nothing is sent, reported or shown. The lines that are not
    blank and that [JSON.parse] rejects or reads as [null] are logged, in
    order; blank lines and the other values (numbers, strings, booleans,
    arrays) are dropped without a trace. *)
Theorem noise_is_logged_or_dropped e (s : state) (p : pid) (buffer data : string) :
  dataBuffer s !! p = Some buffer ->
  Forall (fun l => parses_to_object l = false) (fst (feed buffer data)) ->
  step e s (Stdout p data)
    = Some (fst (set_dataBuffer p (snd (feed buffer data)) s),
            map Log (List.filter logged (fst (feed buffer data)))) /\
  variables (fst (set_dataBuffer p (snd (feed buffer data)) s)) = variables s.
Proof.
  intros Hb Hnoise. split; [|reflexivity].
  unfold step, on_stdout. rewrite Hb. cbn [mbind option_bind].
  destruct (feed buffer data) as [lines rest]. cbn [fst snd] in *.
  rewrite seq_eq, (forEach_noise _ _ Hnoise). reflexivity.
Qed.

(** A chunk of debug output: a line of text, a blank line, a number, the
    word [null], and the beginning of a message. *)
Lemma noise_is_logged_or_dropped_witness :
  snd <$> step env2 detecting2
            (Stdout 0 ("Loading model..." +:+ NL +:+ "  " +:+ NL +:+ "42" +:+ NL
                       +:+ "null" +:+ NL +:+ js "{'status':"))
    = Some [Log "Loading model..."; Log "null"] /\
  (dataBuffer <$> (fst <$> step env2 detecting2
            (Stdout 0 ("Loading model..." +:+ NL +:+ "  " +:+ NL +:+ "42" +:+ NL
                       +:+ "null" +:+ NL +:+ js "{'status':"))))
    = Some (<[0 := js "{'status':"]> (dataBuffer detecting2)).
Proof.
  destruct (noise_is_logged_or_dropped env2 detecting2 0 ""
              ("Loading model..." +:+ NL +:+ "  " +:+ NL +:+ "42" +:+ NL
               +:+ "null" +:+ NL +:+ js "{'status':")) as [E _].
  - vm_compute. reflexivity.
  - match goal with |- Forall ?P ?l =>
      let l' := eval vm_compute in l in change (Forall P l') end.
    repeat (constructor; [vm_compute; reflexivity|]). constructor.
  - rewrite E. split; vm_compute; reflexivity.
Defined.

End Protocol.

(* ===================================================================== *)
(** * Properties of the appointment nodes                                 *)
(* ===================================================================== *)

Import Appointments.

(** ** What the nodes accept *)

Section Validation.

Lemma prop_string_object (v : jsval) (k x : string) :
  prop v k = JStr x -> exists o, v = JObj o.
Proof. destruct v; try discriminate. eauto. Qed.

(** X11. The three nodes accept the same appointments and agree on their
    key. [save appointment] and [remove appointment] accept the same
    messages; [get appointment] accepts them too, and rejects the others
    but for a payload that is [null] or [undefined], on which it throws
    where the other two report an error. On an accepted message each node
    binds to the columns [date], [time] and [patient] of its statement the
    properties of the payload that have these names, whatever the order
    of the [?] in the statement. *)
Theorem nodes_agree_on_the_key (msg : object) :
  accepted (save_input msg) = accepted (remove_input msg) /\
  (if nullish (prop (JObj msg) "payload")
   then get_input msg = Threw /\ accepted (save_input msg) = false
   else accepted (get_input msg) = accepted (save_input msg)) /\
  (forall c, c <> ColNotes ->
     if accepted (save_input msg)
     then bound c (save_input msg) = Some (prop (prop (JObj msg) "payload") (name c)) /\
          bound c (get_input msg) = bound c (save_input msg) /\
          bound c (remove_input msg) = bound c (save_input msg) /\
          truthy (prop (prop (JObj msg) "payload") (name c)) = true
     else bound c (save_input msg) = None /\ bound c (get_input msg) = None /\
          bound c (remove_input msg) = None).
Proof.
  unfold save_input, remove_input, get_input.
  generalize (prop (JObj msg) "payload"). intros appt.
  destruct appt as [| |b|x|s|xs|o].
  1-6: cbn [nullish prop truthy negb orb];
    try destruct b; try destruct (negb (is_zero x || is_nan x));
    try destruct (negb (String.eqb s ""));
    cbn; (split; [reflexivity|split; [auto|intros c _; auto]]).
  cbn [nullish truthy negb orb].
  destruct (truthy (prop (JObj o) "date")) eqn:Hd, (truthy (prop (JObj o) "time")) eqn:Ht,
           (truthy (prop (JObj o) "patient")) eqn:Hp; cbn [negb orb accepted];
    (split; [reflexivity|split; [reflexivity|]]);
    intros [] Hc; try (destruct (Hc eq_refl)); cbn [bound at_column column_eqb
      save_query get_query remove_query name]; auto.
Qed.

End Validation.

(** ** One message, one response *)

Section Responses.






End Responses.

(** ** Saving, finding and removing an appointment *)

Section RoundTrip.

Lemma find_app {A : Type} (f : A -> bool) (l l' : list A) :
  List.find f (l ++ l')
  = match List.find f l with Some x => Some x | None => List.find f l' end.
Proof.
  induction l as [|x l IH]; [reflexivity|]. cbn. destruct (f x); auto.
Qed.

Lemma find_ext {A : Type} (f g : A -> bool) (l : list A) :
  (forall x, f x = g x) -> List.find f l = List.find g l.
Proof.
  intros H. induction l as [|x l IH]; [reflexivity|]. cbn. rewrite H, IH. reflexivity.
Qed.

Lemma find_filter {A : Type} (f g : A -> bool) (l : list A) :
  (forall x, f x = true -> g x = true) ->
  List.find f (List.filter g l) = List.find f l.
Proof.
  intros H. induction l as [|x l IH]; [reflexivity|]. cbn.
  destruct (g x) eqn:Hg; cbn.
  - destruct (f x); auto.
  - destruct (f x) eqn:Hf; [|exact IH]. apply H in Hf. congruence.
Qed.

Lemma find_filter_out {A : Type} (f : A -> bool) (l : list A) :
  List.find f (List.filter (fun x => negb (f x)) l) = None.
Proof.
  induction l as [|x l IH]; [reflexivity|]. cbn.
  destruct (f x) eqn:Hf; cbn; [exact IH|]. rewrite Hf. exact IH.
Qed.

Lemma max_id_bound (rows : list row) (r : row) :
  In r rows -> row_id r <= max_id rows.
Proof.
  induction rows as [|r0 rows IH]; [intros []|].
  change (max_id (r0 :: rows)) with (Nat.max (row_id r0) (max_id rows)).
  intros [<-|H]; [lia|]. specialize (IH H). lia.
Qed.

Lemma truthy_text (x : string) : x <> "" -> truthy (JStr x) = true.
Proof. intros H. cbn. destruct (String.eqb_spec x ""); [contradiction|reflexivity]. Qed.

(** The key of the row a get or a remove looks for, whatever the order of
    the columns in the statement. *)
Lemma matches_key (d t p : string) (r : row) :
  matches [(ColPatient, p); (ColDate, d); (ColTime, t)] r
  = matches [(ColDate, d); (ColTime, t); (ColPatient, p)] r.
Proof.
  cbn. destruct (String.eqb (row_patient r) p), (String.eqb (row_date r) d),
    (String.eqb (row_time r) t); reflexivity.
Qed.

Lemma matches_key_eq (d t p : string) (r : row) :
  matches [(ColDate, d); (ColTime, t); (ColPatient, p)] r = true ->
  row_date r = d /\ row_time r = t /\ row_patient r = p.
Proof.
  cbn. destruct (String.eqb_spec (row_date r) d), (String.eqb_spec (row_time r) t),
    (String.eqb_spec (row_patient r) p); try discriminate. auto.
Qed.

(** The request of [get appointment] for a payload with the three texts. *)
Lemma get_input_key (query : object) (d t p : string) :
  prop (prop (JObj query) "payload") "patient" = JStr p ->
  prop (prop (JObj query) "payload") "date" = JStr d ->
  prop (prop (JObj query) "payload") "time" = JStr t ->
  get_input query
  = if negb (truthy (JStr p)) || negb (truthy (JStr d)) || negb (truthy (JStr t))
    then Rejected "Invalid payload. Expected {patient, date, time}"
    else Submitted get_query [JStr p; JStr d; JStr t].
Proof.
  intros Hp Hd Ht. unfold get_input.
  destruct (prop_string_object _ _ _ Hp) as [o Ho]. rewrite Ho in *.
  cbn [nullish]. rewrite Hp, Hd, Ht. reflexivity.
Qed.

(** What [get appointment] answers on a file that has the table. *)
Lemma handle_get (query : object) (db : database) (rows : list row) (d t p : string) :
  appointments db = Some rows ->
  prop (prop (JObj query) "payload") "patient" = JStr p -> p <> "" ->
  prop (prop (JObj query) "payload") "date" = JStr d -> d <> "" ->
  prop (prop (JObj query) "payload") "time" = JStr t -> t <> "" ->
  handle Get query db
  = Some (db, [NodeSend (set_field "payload"
                 (match List.find (matches [(ColDate, d); (ColTime, t); (ColPatient, p)]) rows with
                  | Some r => row_object r
                  | None => JNull
                  end) query)]).
Proof.
  intros Hrows Hp Hp' Hd Hd' Ht Ht'. unfold handle, input.
  rewrite (get_input_key _ _ _ _ Hp Hd Ht), !truthy_text by assumption.
  cbn [negb orb]. unfold get_query. cbn [execute bind mbind option_bind].
  rewrite Hrows. cbn [mbind option_bind callback get_callback].
  rewrite (find_ext _ _ rows (matches_key d t p)).
  destruct (List.find _ rows); reflexivity.
Qed.

(** X13. An appointment that was saved is found. On a file that has the
    table, [save appointment] adds one row with the date, the time, the
    patient and the notes of the payload (the empty text when the notes are
    missing or falsy) under an [id] larger than any in the table, and sends
    the message with that [id] as [appointment_id]. A query of [get
    appointment] for that patient, date and time is then answered with
    the oldest appointment that has them: the new row with all its
    columns when there was none before, the earlier one otherwise, since
    nothing makes the three unique. *)
Theorem saved_appointment_is_found (msg : object) (db : database) (rows : list row)
    (d t p notes : string) :
  appointments db = Some rows ->
  prop (prop (JObj msg) "payload") "date" = JStr d -> d <> "" ->
  prop (prop (JObj msg) "payload") "time" = JStr t -> t <> "" ->
  prop (prop (JObj msg) "payload") "patient" = JStr p -> p <> "" ->
  or_else (prop (prop (JObj msg) "payload") "notes") (JStr "") = JStr notes ->
  exists db1 r,
    handle Save msg db
    = Some (db1, [NodeSend (set_field "appointment_id" (number (row_id r)) msg)]) /\
    r = {| row_id := next_id rows db; row_date := d; row_time := t;
           row_patient := p; row_notes := Some notes |} /\
    (forall r0, In r0 rows -> row_id r0 < row_id r) /\
    appointments db1 = Some (rows ++ [r]) /\
    forall query,
      prop (prop (JObj query) "payload") "patient" = JStr p ->
      prop (prop (JObj query) "payload") "date" = JStr d ->
      prop (prop (JObj query) "payload") "time" = JStr t ->
      handle Get query db1
      = Some (db1,
              [NodeSend (set_field "payload"
                 (row_object
                    (default r (List.find (matches [(ColPatient, p); (ColDate, d);
                                                    (ColTime, t)]) rows)))
                 query)]).
Proof.
  intros Hrows Hd Hd' Ht Ht' Hp Hp' Hn.
  eexists _, _. split; [|split; [reflexivity|split; [|split]]].
  - unfold handle, input, save_input.
    destruct (prop_string_object _ _ _ Hd) as [o Ho]. rewrite Ho in *.
    rewrite Hd, Ht, Hp, Hn, !truthy_text by assumption.
    cbn [truthy negb orb]. unfold save_query.
    cbn [execute bind mbind option_bind]. rewrite Hrows.
    cbn [value column_eqb mbind option_bind callback save_callback row_id].
    reflexivity.
  - intros r0 H. apply max_id_bound in H. unfold next_id. cbn [row_id]. lia.
  - reflexivity.
  - intros query Hqp Hqd Hqt.
    rewrite (handle_get query _ (rows ++ [_]) d t p) by (assumption || reflexivity).
    rewrite find_app, (find_ext _ _ rows (matches_key d t p)).
    destruct (List.find _ rows) as [r0|]; [reflexivity|].
    cbn [List.find matches forallb cell row_date row_time row_patient].
    rewrite !String.eqb_refl. reflexivity.
Qed.

(** A first appointment saved without notes, then found. *)
Lemma saved_appointment_is_found_witness :
  exists db1 r,
    handle Save [("_msgid", JStr "s1");
                 ("payload", appointment "2025-03-01" "09:30" "Ada" JUndefined)]
           (create_table empty)
    = Some (db1,
            [NodeSend (set_field "appointment_id" (number (row_id r))
               [("_msgid", JStr "s1");
                ("payload", appointment "2025-03-01" "09:30" "Ada" JUndefined)])]) /\
    r = {| row_id := 1; row_date := "2025-03-01"; row_time := "09:30";
           row_patient := "Ada"; row_notes := Some "" |} /\
    (forall r0, In r0 [] -> row_id r0 < row_id r) /\
    appointments db1 = Some ([] ++ [r]) /\
    forall query,
      prop (prop (JObj query) "payload") "patient" = JStr "Ada" ->
      prop (prop (JObj query) "payload") "date" = JStr "2025-03-01" ->
      prop (prop (JObj query) "payload") "time" = JStr "09:30" ->
      handle Get query db1
      = Some (db1,
              [NodeSend (set_field "payload"
                 (row_object
                    (default r (List.find (matches [(ColPatient, "Ada");
                                                    (ColDate, "2025-03-01");
                                                    (ColTime, "09:30")]) [])))
                 query)]).
Proof.
  apply (saved_appointment_is_found
           [("_msgid", JStr "s1");
            ("payload", appointment "2025-03-01" "09:30" "Ada" JUndefined)]
           (create_table empty) [] "2025-03-01" "09:30" "Ada" "");
    try reflexivity; discriminate.
Defined.

(** X14. An appointment that was removed is gone, and only it. On a file
    that has the table, [remove appointment] deletes every row with the
    date, the time and the patient of the payload, leaves the other rows
    and the sequence of the [id]s as they are, and sends the message with
    the number of rows deleted as [deleted_count], which is zero when
    there was none. A query for that patient, date and time is then
    answered with [null]; a query for another key is answered as it was
    before. *)
Theorem removed_appointment_is_gone (msg : object) (db : database) (rows : list row)
    (d t p : string) :
  appointments db = Some rows ->
  prop (prop (JObj msg) "payload") "date" = JStr d -> d <> "" ->
  prop (prop (JObj msg) "payload") "time" = JStr t -> t <> "" ->
  prop (prop (JObj msg) "payload") "patient" = JStr p -> p <> "" ->
  exists db1,
    handle Remove msg db
    = Some (db1,
            [NodeSend (set_field "deleted_count"
               (number (length (List.filter
                  (matches [(ColDate, d); (ColTime, t); (ColPatient, p)]) rows)))
               msg)]) /\
    sequence db1 = sequence db /\
    appointments db1
    = Some (List.filter
              (fun r => negb (matches [(ColDate, d); (ColTime, t); (ColPatient, p)] r))
              rows) /\
    (forall query,
       prop (prop (JObj query) "payload") "patient" = JStr p ->
       prop (prop (JObj query) "payload") "date" = JStr d ->
       prop (prop (JObj query) "payload") "time" = JStr t ->
       handle Get query db1 = Some (db1, [NodeSend (set_field "payload" JNull query)])) /\
    (forall query d' t' p',
       prop (prop (JObj query) "payload") "patient" = JStr p' ->
       prop (prop (JObj query) "payload") "date" = JStr d' ->
       prop (prop (JObj query) "payload") "time" = JStr t' ->
       (d', t', p') <> (d, t, p) ->
       snd <$> handle Get query db1 = snd <$> handle Get query db).
Proof.
  intros Hrows Hd Hd' Ht Ht' Hp Hp'.
  eexists. split; [|split; [|split; [|split]]].
  - unfold handle, input, remove_input.
    destruct (prop_string_object _ _ _ Hd) as [o Ho]. rewrite Ho in *.
    rewrite Hd, Ht, Hp, !truthy_text by assumption.
    cbn [truthy negb orb]. unfold remove_query.
    cbn [execute bind mbind option_bind]. rewrite Hrows.
    cbn [mbind option_bind callback remove_callback]. reflexivity.
  - reflexivity.
  - reflexivity.
  - intros query Hqp Hqd Hqt.
    rewrite (handle_get query _ _ d t p) by (assumption || reflexivity).
    rewrite find_filter_out. reflexivity.
  - intros query d' t' p' Hqp Hqd Hqt Hne.
    unfold handle, input. rewrite (get_input_key _ _ _ _ Hqp Hqd Hqt).
    destruct (negb (truthy (JStr p')) || negb (truthy (JStr d')) || negb (truthy (JStr t')));
      [reflexivity|].
    unfold get_query. cbn [execute bind mbind option_bind appointments].
    rewrite Hrows. cbn [mbind option_bind callback get_callback fmap option_fmap option_map snd].
    rewrite find_filter; [reflexivity|].
    intros r Hr. rewrite matches_key in Hr. apply matches_key_eq in Hr as (E1 & E2 & E3).
    destruct (matches _ r) eqn:Hm; [|reflexivity].
    apply matches_key_eq in Hm as (E4 & E5 & E6). exfalso. apply Hne. congruence.
Qed.

(** Two appointments of the same patient on the same day; the first is
    removed and the second is still found. *)
Lemma removed_appointment_is_gone_witness :
  exists db1,
    handle Remove [("payload", appointment "2025-03-01" "09:30" "Ada" JUndefined)]
      {| appointments := Some [{| row_id := 1; row_date := "2025-03-01";
                                  row_time := "09:30"; row_patient := "Ada";
                                  row_notes := Some "" |};
                               {| row_id := 2; row_date := "2025-03-01";
                                  row_time := "14:00"; row_patient := "Ada";
                                  row_notes := Some "follow-up" |}];
         sequence := 2 |}
    = Some (db1, [NodeSend [("payload", appointment "2025-03-01" "09:30" "Ada" JUndefined);
                            ("deleted_count", JNum 1)]]) /\
    db1 = {| appointments := Some [{| row_id := 2; row_date := "2025-03-01";
                                      row_time := "14:00"; row_patient := "Ada";
                                      row_notes := Some "follow-up" |}];
             sequence := 2 |} /\
    handle Get [("payload", appointment "2025-03-01" "09:30" "Ada" JUndefined)] db1
    = Some (db1, [NodeSend [("payload", JNull)]]).
Proof.
  destruct (removed_appointment_is_gone
              [("payload", appointment "2025-03-01" "09:30" "Ada" JUndefined)]
              {| appointments := Some [{| row_id := 1; row_date := "2025-03-01";
                                          row_time := "09:30"; row_patient := "Ada";
                                          row_notes := Some "" |};
                                       {| row_id := 2; row_date := "2025-03-01";
                                          row_time := "14:00"; row_patient := "Ada";
                                          row_notes := Some "follow-up" |}];
                 sequence := 2 |}
              _ "2025-03-01" "09:30" "Ada" eq_refl)
    as (db1 & Hrem & _ & _ & Hget & _);
    try reflexivity; try discriminate.
  exists db1. split; [exact Hrem|]. split.
  - vm_compute in Hrem. injection Hrem as <-. reflexivity.
  - apply Hget; reflexivity.
Defined.

End RoundTrip.

(** ** The [id]s *)

Section Identifiers.







End Identifiers.

(** ** The table *)

Section Table.

Lemma create_table_existing (db : database) (rows : list row) :
  appointments db = Some rows -> create_table db = db.
Proof. destruct db as [tbl sq]. cbn. intros ->. reflexivity. Qed.

(** X16. Only [save appointment] and [remove appointment] create the
    table. Creating it is idempotent and leaves a table that exists, with
    its rows and the sequence of its [id]s, as it is. [get appointment]
    does not create it: on a file without the table, which is what it has
    when no node of the other two kinds ever opened the file, every query
    it accepts is answered with an error report and nothing is sent; once
    one of them opened the file the same query is answered with [null]. *)
Theorem get_does_not_create_the_table (query : object) (db : database)
    (d t p : string) :
  appointments db = None ->
  prop (prop (JObj query) "payload") "patient" = JStr p -> p <> "" ->
  prop (prop (JObj query) "payload") "date" = JStr d -> d <> "" ->
  prop (prop (JObj query) "payload") "time" = JStr t -> t <> "" ->
  open Get db = db /\
  (exists e, handle Get query db
             = Some (db, [NodeError ("Database query failed: " +:+ e)])) /\
  (forall n, n <> Get ->
     appointments (open n db) = Some [] /\
     sequence (open n db) = sequence db /\
     handle Get query (open n db)
     = Some (open n db, [NodeSend (set_field "payload" JNull query)])) /\
  (forall n db0 rows, appointments db0 = Some rows -> open n db0 = db0) /\
  (forall n db0, open n (open n db0) = open n db0).
Proof.
  intros Hnone Hp Hp' Hd Hd' Ht Ht'.
  split; [reflexivity|split; [|split; [|split]]].
  - eexists. unfold handle, input.
    rewrite (get_input_key _ _ _ _ Hp Hd Ht), !truthy_text by assumption.
    cbn [negb orb]. unfold get_query. cbn [execute bind mbind option_bind].
    rewrite Hnone. reflexivity.
  - intros n Hn.
    assert (E : open n db = create_table db) by (destruct n; auto; contradiction).
    rewrite E. unfold create_table at 1 2. rewrite Hnone. cbn [appointments sequence default].
    split; [reflexivity|split; [reflexivity|]].
    rewrite (handle_get query _ [] d t p); auto. unfold create_table. now rewrite Hnone.
  - intros n db0 rows H. destruct n; cbn; eauto using create_table_existing.
  - intros n [[rows|] sq]; destruct n; reflexivity.
Qed.

(** A query on a file that was just created, before and after a [save
    appointment] node opened it. *)
Lemma get_does_not_create_the_table_witness :
  handle Get [("payload", appointment "2025-03-01" "09:30" "Ada" JUndefined)] empty
  = Some (empty,
          [NodeError "Database query failed: Error: SQLITE_ERROR: no such table: appointments"]) /\
  handle Get [("payload", appointment "2025-03-01" "09:30" "Ada" JUndefined)]
         (open Save empty)
  = Some (open Save empty, [NodeSend [("payload", JNull)]]).
Proof.
  destruct (get_does_not_create_the_table
              [("payload", appointment "2025-03-01" "09:30" "Ada" JUndefined)]
              empty "2025-03-01" "09:30" "Ada")
    as (_ & _ & H & _); try reflexivity; try discriminate.
  split; [reflexivity|]. apply (H Save). discriminate.
Defined.

End Table.
